(** * Tire Market Dashboard (app.py): filter and aggregation stages

    A shallow embedding of the dashboard script.  The script loads one table,
    narrows it with two sidebar selections and derives every chart, metric
    and table from the narrowed table.  The embedding keeps the script's
    names ([df_filtered], [sales_data], [market_share], ...) and models each
    pandas call by a list function of the same name in [Module Pandas].

    Modelling choices, all visible in the definitions below:
    - a data frame is the list of its rows, in row order; a column selection
      [df[[c1, c2]]] is the list of the corresponding tuples;
    - a row follows the data model of the specification: every cell is
      present except the brand name and the fitments, which are nullable
      ([option string]).  A table with missing cells in another column is
      outside the model;
    - a numeric cell is an exact rational ([Qc]) and sums, quotients and
      products are exact.  The script computes on int64 and float64 columns:
      its results are those of the model where its arithmetic is exact, and
      close to them otherwise.  Statements about computed values therefore
      are made for whole numbers of bounded size ([whole_sales]), and
      statements about formatted text say which number the text shows and
      how close it is to the exact value ([shows_percent]), not which digits
      an exact computation would give;
    - the one float value that is not a number and that the script can
      produce from such a table, NaN (the mean of an empty column), is kept:
      a float result is an [option Qc] with [None] for NaN;
    - the only operation of the script that can raise on a well-typed table,
      [.iloc[0]], returns in the [result] monad. *)

From Stdlib Require Import List String Ascii Bool Arith ZArith QArith Qcanon.
From Stdlib Require Import Lia Permutation Sorted DecimalString DecimalPos DecimalN.
Import ListNotations.

Local Close Scope Qc_scope.
Local Close Scope Q_scope.
Local Open Scope string_scope.
Local Open Scope list_scope.

(** ** Exceptions *)

Inductive exn : Type := IndexError.

Inductive result (A : Type) : Type :=
| Ok (a : A)
| Raise (e : exn).

Arguments Ok {A} a.
Arguments Raise {A} e.

Definition bind {A B : Type} (m : result A) (k : A -> result B) : result B :=
  match m with
  | Ok a => k a
  | Raise e => Raise e
  end.

Notation "x <- m ;; k" := (bind m (fun x => k))
  (at level 61, m at next level, right associativity).

(** ** Numeric cells *)

Definition Qceqb (x y : Qc) : bool := Qeq_bool x y.
Definition Qcleb (x y : Qc) : bool := Qle_bool x y.

(** The integer [n] as a numeric cell. *)
Definition of_Z (n : Z) : Qc := Q2Qc (inject_Z n).
Definition of_nat (n : nat) : Qc := of_Z (Z.of_nat n).

(** ** The pandas operations the script calls *)

Module Pandas.

Section Generic.
Variable A : Type.
Variable eqb : A -> A -> bool.

(** [Series.unique] and [DataFrame.drop_duplicates] (keep="first"): walk the
    rows in order and keep a row unless an equal one was already seen. *)
Fixpoint drop_duplicates_from (seen l : list A) : list A :=
  match l with
  | [] => []
  | x :: t =>
      if existsb (eqb x) seen then drop_duplicates_from seen t
      else x :: drop_duplicates_from (x :: seen) t
  end.

Definition drop_duplicates (l : list A) : list A := drop_duplicates_from [] l.

Definition unique := drop_duplicates.

(** [sort_values]: [leb x y] says that [x] may stand before [y].  pandas
    leaves the order of rows with equal keys to the sort kind; the model
    keeps such rows in their original order (insertion from the right), and
    the statements below hold whatever that order is. *)
Variable leb : A -> A -> bool.

Fixpoint insert (x : A) (l : list A) : list A :=
  match l with
  | [] => [x]
  | y :: t => if leb x y then x :: y :: t else y :: insert x t
  end.

Fixpoint sort_values (l : list A) : list A :=
  match l with
  | [] => []
  | x :: t => insert x (sort_values t)
  end.
End Generic.

Arguments drop_duplicates_from {A} eqb seen l.
Arguments drop_duplicates {A} eqb l.
Arguments unique {A} eqb l.
Arguments insert {A} leb x l.
Arguments sort_values {A} leb l.

(** [DataFrame.head(n)] and the slice [a[:n]]. *)
Definition head {A : Type} (n : nat) (l : list A) : list A := firstn n l.

Arguments head : simpl never.

(** [Series.dropna] on a nullable column. *)
Fixpoint dropna {A : Type} (l : list (option A)) : list A :=
  match l with
  | [] => []
  | Some a :: t => a :: dropna t
  | None :: t => dropna t
  end.

(** [Series.sum]. *)
Definition sum (xs : list Qc) : Qc := fold_right Qcplus 0%Qc xs.

(** [Series.mean]: NaN on an empty column. *)
Definition mean (xs : list Qc) : option Qc :=
  match xs with
  | [] => None
  | _ :: _ => Some (sum xs / of_nat (List.length xs))%Qc
  end.

(** [max] of a group: NaN on an empty one. *)
Fixpoint max (xs : list Qc) : option Qc :=
  match xs with
  | [] => None
  | x :: t =>
      match max t with
      | None => Some x
      | Some m => Some (if Qcleb m x then x else m)
      end
  end.

(** [groupby(key)]: one group per distinct key, groups in ascending key order
    (sort=True), each group holding its rows in row order. *)
Definition groupby {R : Type} (key : R -> string) (rows : list R)
  : list (string * list R) :=
  map (fun k => (k, filter (fun r => String.eqb (key r) k) rows))
      (sort_values String.leb (unique String.eqb (map key rows))).

(** [Series.value_counts]: the distinct values with their number of
    occurrences, most frequent first. *)
Definition value_counts (l : list string) : list (string * nat) :=
  sort_values (fun a b => Nat.leb (snd b) (snd a))
    (map (fun k => (k, List.length (filter (String.eqb k) l)))
         (unique String.eqb l)).

(** [DataFrame.iloc[0]]: raises on an empty frame. *)
Definition iloc0 {A : Type} (l : list A) : result A :=
  match l with
  | [] => Raise IndexError
  | r :: _ => Ok r
  end.

(** [DataFrame.empty]. *)
Definition empty {A : Type} (l : list A) : bool :=
  match l with [] => true | _ :: _ => false end.

End Pandas.

(** ** Python's fixed-point formatting, [f"{x:.2f}"] and [f"{x:.4f}"] *)

Module Fmt.

(** The integer nearest to [q], ties to the even one: Python formats a float
    from its exact value, correctly rounded. *)
Definition round_half_even (q : Q) : Z :=
  let n := Qnum q in
  let d := Zpos (Qden q) in
  let fl := (n / d)%Z in
  match (2 * (n mod d) ?= d)%Z with
  | Lt => fl
  | Gt => (fl + 1)%Z
  | Eq => if Z.even fl then fl else (fl + 1)%Z
  end.

(** [x] in units of [10^-d], rounded. *)
Definition quantize (d : nat) (x : Qc) : Z :=
  round_half_even (x * inject_Z (10 ^ Z.of_nat d)).

Definition digit (k : Z) : ascii := ascii_of_nat (48 + Z.to_nat k).

(** The last [d] decimal digits of [n], zero padded. *)
Fixpoint digits (d : nat) (n : Z) : string :=
  match d with
  | O => ""
  | S d' => (digits d' (n / 10) ++ String (digit (n mod 10)) "")%string
  end.

Definition format_f (d : nat) (x : Qc) : string :=
  let n := Z.abs (quantize d x) in
  let p := (10 ^ Z.of_nat d)%Z in
  ((if Qle_bool 0 x then "" else "-")
   ++ NilEmpty.string_of_uint (N.to_uint (Z.to_N (n / p)))
   ++ match d with
      | O => ""
      | S _ => "." ++ digits d (n mod p)
      end)%string.

(** A float result: NaN prints as [nan]. *)
Definition format_float (d : nat) (x : option Qc) : string :=
  match x with
  | None => "nan"
  | Some q => format_f d q
  end.

End Fmt.

(** Float multiplication by a constant; NaN propagates. *)
Definition fmul (x : option Qc) (k : Qc) : option Qc :=
  option_map (fun q => (q * k)%Qc) x.

(** ** The data model: one row of the dataset *)

Record Row : Type := {
  COUNTRY_OR_TERRITORY : string;
  TIRE_SIZE : string;
  TOTAL_INDUSTRY_SALES : Qc;
  GOODYEAR_SALES : Qc;
  SOM_OF_BRAND : Qc;
  COMPETITOR_BRAND : string;
  COMPETITOR_BRAND_SALES : Qc;
  COMPETITOR_SOM : Qc;
  BRAND_NAME : option string;
  COMPETITOR_PATTERN : string;
  COMPETITOR_PATTERN_SALES : Qc;
  TOP_5_FITMENTS : option string
}.

Definition DataFrame : Type := list Row.

(** ** Equality of the tuples the script deduplicates on *)

Definition eqb_QQ (a b : Qc * Qc) : bool :=
  Qceqb (fst a) (fst b) && Qceqb (snd a) (snd b).

Definition eqb_SQ (a b : string * Qc) : bool :=
  String.eqb (fst a) (fst b) && Qceqb (snd a) (snd b).

Definition eqb_SQQ (a b : string * Qc * Qc) : bool :=
  eqb_SQ (fst a) (fst b) && Qceqb (snd a) (snd b).

(** ** Widgets *)

(** [st.selectbox(label, options)]: the option at the position the user
    picked, [None] when there is no such option (an empty option list). *)
Definition selectbox {A : Type} (options : list A) (choice : nat) : option A :=
  nth_error options choice.

(** [column == selection], row by row: a text cell never equals [None]. *)
Definition eq_sel (cell : string) (selection : option string) : bool :=
  match selection with
  | Some s => String.eqb cell s
  | None => false
  end.

(** ** The script *)

(** Line 13. *)
Definition selected_countries (df : DataFrame) (choice : nat) : option string :=
  selectbox (Pandas.unique String.eqb (map COUNTRY_OR_TERRITORY df)) choice.

(** Line 14. *)
Definition selected_tire_size (df : DataFrame) (choice : nat) : option string :=
  selectbox (Pandas.unique String.eqb (map TIRE_SIZE df)) choice.

(** Lines 17-20. *)
Definition df_filtered (df : DataFrame) (country size : option string) : DataFrame :=
  filter (fun r => eq_sel (COUNTRY_OR_TERRITORY r) country
                   && eq_sel (TIRE_SIZE r) size) df.

(** [melt] of a two-column frame: the first column's values under the first
    column's name, then the second column's. *)
Definition melt (c1 c2 : string) (rows : list (Qc * Qc)) : list (string * Qc) :=
  map (fun r => (c1, fst r)) rows ++ map (fun r => (c2, snd r)) rows.

(** Line 30. *)
Definition sales_data (df_filtered : DataFrame) : list (string * Qc) :=
  melt "TOTAL_INDUSTRY_SALES" "GOODYEAR_SALES"
    (Pandas.drop_duplicates eqb_QQ
       (map (fun r => (TOTAL_INDUSTRY_SALES r, GOODYEAR_SALES r)) df_filtered)).

(** Line 51. *)
Definition market_share (df_filtered : DataFrame) : option Qc :=
  Pandas.mean (Pandas.drop_duplicates Qceqb (map SOM_OF_BRAND df_filtered)).

(** Line 53: the text of the metric. *)
Definition market_share_text (df_filtered : DataFrame) : string :=
  (Fmt.format_float 2 (fmul (market_share df_filtered) (of_Z 100)) ++ "%")%string.

(** Lines 59-66. *)
Definition df_competitor_sales (df_filtered : DataFrame) : list (string * Qc) :=
  Pandas.head 35
    (Pandas.sort_values (fun a b => Qcleb (snd b) (snd a))
       (map (fun g => (fst g, Pandas.sum (map snd (snd g))))
          (Pandas.groupby fst
             (Pandas.drop_duplicates eqb_SQ
                (map (fun r => (COMPETITOR_BRAND r, COMPETITOR_BRAND_SALES r))
                     df_filtered))))).

(** Line 83. *)
Definition df_valid_brands (df_filtered : DataFrame) : DataFrame :=
  filter (fun r => match BRAND_NAME r with Some _ => true | None => false end)
         df_filtered.

(** Lines 86-87. *)
Definition brand_counts (df_filtered : DataFrame) : list (string * nat) :=
  Pandas.value_counts (Pandas.dropna (map BRAND_NAME (df_valid_brands df_filtered))).

(** Line 90. *)
Definition total_brands (df_filtered : DataFrame) : nat :=
  list_sum (map snd (brand_counts df_filtered)).

(** Line 91: the PERCENTAGE column next to the brand. *)
Definition brand_percentage (df_filtered : DataFrame) : list (string * Qc) :=
  map (fun bc => (fst bc,
                  (of_nat (snd bc) / of_nat (total_brands df_filtered) * of_Z 100)%Qc))
      (brand_counts df_filtered).

(** A row of the top-competitor table: brand, sales (a float result, the
    maximum of a group) and the share already formatted as text. *)
Record TopRow : Type := {
  top_brand : string;
  top_sales : option Qc;
  top_som : string
}.

(** [sort_values(ascending=False)] on a float column: larger first, NaN last. *)
Definition desc_nan_last (a b : option Qc) : bool :=
  match a, b with
  | _, None => true
  | None, Some _ => false
  | Some x, Some y => Qcleb y x
  end.

(** Lines 114-117: one row per brand, with the aggregated sales and share. *)
Definition top_competitors_agg (df_filtered : DataFrame)
  : list (string * option Qc * option Qc) :=
  map (fun g => (fst g,
                 Pandas.max (map (fun t => snd (fst t)) (snd g)),
                 Pandas.mean (map snd (snd g))))
      (Pandas.groupby (fun t => fst (fst t))
         (Pandas.drop_duplicates eqb_SQQ
            (map (fun r => (COMPETITOR_BRAND r, COMPETITOR_BRAND_SALES r,
                            COMPETITOR_SOM r))
                 df_filtered))).

(** Lines 120-121 applied to one aggregated share. *)
Definition som_text (som : option Qc) : string :=
  (Fmt.format_float 4 (fmul som (of_Z 100)) ++ "%")%string.

(** One aggregated row with its share formatted (lines 120-121). *)
Definition top_row_of (t : string * option Qc * option Qc) : TopRow :=
  {| top_brand := fst (fst t); top_sales := snd (fst t); top_som := som_text (snd t) |}.

(** Lines 114-124. *)
Definition df_top_competitors (df_filtered : DataFrame) : list TopRow :=
  Pandas.head 10
    (Pandas.sort_values (fun a b => desc_nan_last (top_sales a) (top_sales b))
       (map top_row_of (top_competitors_agg df_filtered))).

(** Lines 136-146: the two callout texts, when they are written. *)
Definition top_competitor_callouts (df_top_competitors : list TopRow)
  : result (option (string * string)) :=
  if negb (Pandas.empty df_top_competitors) then
    top_competitor <- Pandas.iloc0 df_top_competitors ;;
    Ok (Some (top_brand top_competitor, top_som top_competitor))
  else Ok None.

(** Line 153: what the competitor selector offers. *)
Definition competitor_options (df_top_competitors : list TopRow) : list string :=
  Pandas.unique String.eqb (map top_brand df_top_competitors).

(** Line 153. *)
Definition selected_competitor (df_top_competitors : list TopRow) (choice : nat)
  : option string :=
  selectbox (competitor_options df_top_competitors) choice.

(** Line 156. *)
Definition df_competitor_pattern (df_filtered : DataFrame)
    (selected_competitor : option string) : DataFrame :=
  filter (fun r => eq_sel (COMPETITOR_BRAND r) selected_competitor) df_filtered.

(** Line 159. *)
Definition df_pattern_sales (df_competitor_pattern : DataFrame) : list (string * Qc) :=
  Pandas.drop_duplicates eqb_SQ
    (map (fun r => (COMPETITOR_PATTERN r, COMPETITOR_PATTERN_SALES r))
         df_competitor_pattern).

(** Line 174. *)
Definition fitments (df_filtered : DataFrame) : list string :=
  Pandas.unique String.eqb (Pandas.dropna (map TOP_5_FITMENTS df_filtered)).

(** The check mark and the blank that line 176 writes before a fitment
    (U+2705 in UTF-8, then a space). *)
Definition check_mark : string :=
  String (ascii_of_nat 226) (String (ascii_of_nat 156) (String (ascii_of_nat 133) " ")).

(** Lines 175-176: the lines written, one per displayed fitment. *)
Definition fitment_lines (df_filtered : DataFrame) : list string :=
  map (fun fitment => (check_mark ++ fitment)%string)
      (Pandas.head 5 (fitments df_filtered)).

(** ** One run of the script *)

(** What one run hands to the presentation calls. *)
Record Page : Type := {
  page_sales : list (string * Qc);
  page_metric : string;
  page_competitor_sales : list (string * Qc);
  page_brand_pie : list (string * Qc);
  page_top_table : list TopRow;
  page_callouts : option (string * string);
  page_competitor_options : list string;
  page_pattern_pie : list (string * Qc);
  page_fitments : list string
}.

(** The script from top to bottom.  The three arguments after the table are
    the positions picked in the three selectors. *)
Definition run (df : DataFrame) (country_choice size_choice competitor_choice : nat)
  : result Page :=
  let dff := df_filtered df (selected_countries df country_choice)
                            (selected_tire_size df size_choice) in
  let top := df_top_competitors dff in
  callouts <- top_competitor_callouts top ;;
  Ok {| page_sales := sales_data dff;
        page_metric := market_share_text dff;
        page_competitor_sales := df_competitor_sales dff;
        page_brand_pie := brand_percentage dff;
        page_top_table := top;
        page_callouts := callouts;
        page_competitor_options := competitor_options top;
        page_pattern_pie :=
          df_pattern_sales
            (df_competitor_pattern dff (selected_competitor top competitor_choice));
        page_fitments := fitment_lines dff |}.

(** ** A small dataset for the examples *)

Definition mk_row (country size : string) (industry goodyear som : Qc)
    (brand : string) (brand_sales brand_som : Qc) (name : option string)
    (pattern : string) (pattern_sales : Qc) (fit : option string) : Row :=
  {| COUNTRY_OR_TERRITORY := country; TIRE_SIZE := size;
     TOTAL_INDUSTRY_SALES := industry; GOODYEAR_SALES := goodyear;
     SOM_OF_BRAND := som; COMPETITOR_BRAND := brand;
     COMPETITOR_BRAND_SALES := brand_sales; COMPETITOR_SOM := brand_som;
     BRAND_NAME := name; COMPETITOR_PATTERN := pattern;
     COMPETITOR_PATTERN_SALES := pattern_sales; TOP_5_FITMENTS := fit |}.

Definition frac (n : Z) (d : positive) : Qc := Q2Qc (n # d).

Definition sample : DataFrame :=
  [ mk_row "US" "P225/65R17" (of_Z 1000) (of_Z 200) (frac 1 5)
        "A" (of_Z 300) (frac 3 10) (Some "Goodyear") "A1" (of_Z 180) (Some "RAV4");
    mk_row "US" "P225/65R17" (of_Z 1000) (of_Z 200) (frac 1 5)
        "A" (of_Z 300) (frac 3 10) None "A2" (of_Z 120) None;
    mk_row "US" "P225/65R17" (of_Z 1000) (of_Z 200) (frac 1 5)
        "B" (of_Z 150) (frac 3 20) (Some "Dunlop") "B1" (of_Z 150) (Some "CR-V");
    mk_row "US" "P225/65R17" (of_Z 1000) (of_Z 200) (frac 1 5)
        "C" (of_Z 350) (frac 7 20) (Some "Goodyear") "C1" (of_Z 350) (Some "RAV4");
    mk_row "CA" "205/55R16" (of_Z 400) (of_Z 100) (frac 1 4)
        "B" (of_Z 90) (frac 9 40) (Some "Kelly") "B1" (of_Z 90) (Some "Civic") ].

Definition sample_us : DataFrame := df_filtered sample (Some "US") (Some "P225/65R17").

(** ** Quantities the statements below refer to *)

(** The rows of the filtered table that carry competitor brand [b]. *)
Definition brand_rows (df_filtered : DataFrame) (b : string) : DataFrame :=
  filter (fun r => String.eqb (COMPETITOR_BRAND r) b) df_filtered.

(** The sum of the distinct sales figures recorded for brand [b]. *)
Definition brand_sales_total (df_filtered : DataFrame) (b : string) : Qc :=
  Pandas.sum
    (Pandas.drop_duplicates Qceqb
       (map COMPETITOR_BRAND_SALES (brand_rows df_filtered b))).

(** The distinct (sales, share) pairs recorded for brand [b]. *)
Definition brand_sales_som (df_filtered : DataFrame) (b : string) : list (Qc * Qc) :=
  Pandas.drop_duplicates eqb_QQ
    (map (fun r => (COMPETITOR_BRAND_SALES r, COMPETITOR_SOM r))
         (brand_rows df_filtered b)).

(** What a row of the table says about its brand. *)
Definition top_row_ok (dff : DataFrame) (row : TopRow) : Prop :=
  exists s m,
    top_sales row = Some s
    /\ (exists r, In r dff /\ COMPETITOR_BRAND r = top_brand row
                  /\ COMPETITOR_BRAND_SALES r = s)
    /\ (forall r, In r dff -> COMPETITOR_BRAND r = top_brand row ->
                  (COMPETITOR_BRAND_SALES r <= s)%Qc)
    /\ Pandas.mean (map snd (brand_sales_som dff (top_brand row))) = Some m
    /\ top_som row = (Fmt.format_f 4 (m * of_Z 100) ++ "%")%string.

(** The order of the table rows: both sales are numbers and the first is at
    least the second. *)
Definition sales_desc (a b : TopRow) : Prop :=
  exists x y, top_sales a = Some x /\ top_sales b = Some y /\ (y <= x)%Qc.

(** [selects P l l']: [l'] holds exactly the rows of [l] that satisfy [P],
    each as often as in [l] and in the order of [l]. *)
Inductive selects {A : Type} (P : A -> Prop) : list A -> list A -> Prop :=
| selects_nil : selects P [] []
| selects_keep r l l' : P r -> selects P l l' -> selects P (r :: l) (r :: l')
| selects_drop r l l' : ~ P r -> selects P l l' -> selects P (r :: l) l'.

(** The callouts of a table, read off its first row. *)
Definition first_row_callouts (table : list TopRow) : option (string * string) :=
  match table with
  | [] => None
  | top_competitor :: _ => Some (top_brand top_competitor, top_som top_competitor)
  end.

(** The number of rows of the filtered table whose brand name is [b]. *)
Definition rows_named (df_filtered : DataFrame) (b : string) : nat :=
  List.length
    (filter (fun r => match BRAND_NAME r with
                      | Some n => String.eqb b n
                      | None => false
                      end) df_filtered).

(** The number of distinct competitor brands in the filtered table. *)
Definition brand_count (df_filtered : DataFrame) : nat :=
  List.length (Pandas.unique String.eqb (map COMPETITOR_BRAND df_filtered)).

(** ** The words of the specification, written without the script's functions *)

(** The distinct values of a column in the order of their first occurrence. *)
Definition distinct {A : Type} (dec : forall x y : A, {x = y} + {x <> y})
    (l : list A) : list A :=
  rev (nodup dec (rev l)).

(** The sum and the mean of numbers. *)
Definition total (xs : list Qc) : Qc := fold_right Qcplus (Q2Qc 0) xs.

Definition average (xs : list Qc) : option Qc :=
  match xs with
  | [] => None
  | _ :: _ => Some (Qcdiv (total xs) (of_nat (List.length xs)))
  end.

Definition QQ_eq_dec (a b : Qc * Qc) : {a = b} + {a <> b}.
Proof. decide equality; apply Qc_eq_dec. Defined.

(** The distinct sales figures of brand [b], added up. *)
Definition brand_sales_sum (df_filtered : DataFrame) (b : string) : Qc :=
  total
    (distinct Qc_eq_dec
       (map COMPETITOR_BRAND_SALES
          (filter (fun r => String.eqb (COMPETITOR_BRAND r) b) df_filtered))).

(** The mean share over the distinct (sales, share) pairs of brand [b]. *)
Definition brand_mean_share (df_filtered : DataFrame) (b : string) : option Qc :=
  average
    (map snd
       (distinct QQ_eq_dec
          (map (fun r => (COMPETITOR_BRAND_SALES r, COMPETITOR_SOM r))
             (filter (fun r => String.eqb (COMPETITOR_BRAND r) b) df_filtered)))).

(** The competitor sales cells are whole numbers whose absolute values add up
    to at most 2^53.  Every sum of such cells is then a whole number of at most
    that size, which an int64 column adds without wrap-around and a float64
    column without rounding, in whatever order: the exact sums of the model
    are the sums of the script. *)
Definition whole_sales (df_filtered : DataFrame) : Prop :=
  exists zs : list Z,
    map COMPETITOR_BRAND_SALES df_filtered = map of_Z zs
    /\ (fold_right (fun z acc => Z.abs z + acc) 0 zs <= 2 ^ 53)%Z.

(** Reading decimal digits. *)
Definition digit_value (c : ascii) : option N :=
  let n := N_of_ascii c in
  if ((48 <=? n) && (n <=? 57))%N then Some (n - 48)%N else None.

Fixpoint read_digits_from (acc : N) (s : string) : option N :=
  match s with
  | EmptyString => Some acc
  | String c s' =>
      match digit_value c with
      | Some k => read_digits_from (acc * 10 + k) s'
      | None => None
      end
  end.

Definition read_digits (s : string) : option N :=
  match s with
  | EmptyString => None
  | String _ _ => read_digits_from 0 s
  end.

(** [shows_percent d text n]: [text] is decimal digits, a point, exactly [d]
    decimal digits and a percent sign, and the number it shows is [n] units
    of [10^-d]. *)
Definition shows_percent (d : nat) (text : string) (n : Z) : Prop :=
  exists (whole decimals : string) (w f : N),
    text = (whole ++ "." ++ decimals ++ "%")%string
    /\ String.length decimals = d
    /\ read_digits whole = Some w
    /\ read_digits decimals = Some f
    /\ n = Z.of_N (w * 10 ^ N.of_nat d + f).

(** What a row of the top-10 table says about its brand: its sales cell is the
    largest sales figure of the brand; and when the brand's shares lie in
    [0, 1], its share text shows, with 4 decimals, a number less than one
    unit of the last decimal away from 100 times the mean share. *)
Definition top_row_spec (dff : DataFrame) (row : TopRow) : Prop :=
  (exists s,
     top_sales row = Some s
     /\ (exists r, In r dff /\ COMPETITOR_BRAND r = top_brand row
                   /\ COMPETITOR_BRAND_SALES r = s)
     /\ (forall r, In r dff -> COMPETITOR_BRAND r = top_brand row ->
                   (COMPETITOR_BRAND_SALES r <= s)%Qc))
  /\ ((forall r, In r dff -> COMPETITOR_BRAND r = top_brand row ->
                 (0 <= COMPETITOR_SOM r)%Qc /\ (COMPETITOR_SOM r <= 1)%Qc) ->
      exists m n,
        brand_mean_share dff (top_brand row) = Some m
        /\ shows_percent 4 (top_som row) n
        /\ (m * inject_Z 1000000 - 1 < inject_Z n)%Q
        /\ (inject_Z n < m * inject_Z 1000000 + 1)%Q).

(** A dataset in which a brand carries two sales figures. *)
Definition sample_two_figures : DataFrame :=
  [ mk_row "US" "P225/65R17" (of_Z 1000) (of_Z 200) (frac 1 5)
           "A" (of_Z 300) (frac 3 10) (Some "Goodyear") "A1" (of_Z 180) (Some "RAV4");
    mk_row "US" "P225/65R17" (of_Z 1000) (of_Z 200) (frac 1 5)
           "B" (of_Z 150) (frac 3 20) (Some "Dunlop") "B1" (of_Z 150) (Some "CR-V");
    mk_row "US" "P225/65R17" (of_Z 1000) (of_Z 200) (frac 1 4)
           "A" (of_Z 120) (frac 1 8) None "A2" (of_Z 120) None ].

(** ** Statements of the specification that the script does not meet *)

(** The empty-selection page as the specification words it, with the metric reading
    [0.00%] on an empty filtered subset. *)
Definition empty_selection_reads_zero : Prop :=
  forall (df : DataFrame) (i j k : nat),
    df_filtered df (selected_countries df i) (selected_tire_size df j) = [] ->
    exists page,
      run df i j k = Ok page
      /\ page_metric page = "0.00%"
      /\ page_competitor_sales page = []
      /\ page_top_table page = []
      /\ page_fitments page = [].

(** The metric range as the specification words it: every filtered table with
    share fractions in [0, 1] has a market share, and times 100 it lies in
    [0, 100]. *)
Definition metric_in_range_on_every_table : Prop :=
  forall dff : DataFrame,
    (forall r, In r dff -> (0 <= SOM_OF_BRAND r)%Qc /\ (SOM_OF_BRAND r <= 1)%Qc) ->
    exists m, market_share dff = Some m
              /\ (0 <= m * of_Z 100)%Qc /\ (m * of_Z 100 <= of_Z 100)%Qc.

(** * Properties *)

(** ** The model on the sample dataset *)

Example format_f_examples :
  Fmt.format_f 2 (frac 1 5 * of_Z 100) = "20.00"
  /\ Fmt.format_f 2 (frac 1 8) = "0.12"
  /\ Fmt.format_f 2 (frac 3 8) = "0.38"
  /\ Fmt.format_f 2 (frac (-1) 1000) = "-0.00"
  /\ Fmt.format_f 4 (frac 200 3) = "66.6667"
  /\ Fmt.format_float 2 None = "nan".
Proof. repeat split. Qed.

Example sample_us_page :
  map (fun p => (fst p, this (snd p))) (sales_data sample_us)
  = [("TOTAL_INDUSTRY_SALES", 1000 # 1); ("GOODYEAR_SALES", 200 # 1)]%Q
  /\ map (fun p => (fst p, this (snd p))) (df_competitor_sales sample_us)
     = [("C", 350 # 1); ("A", 300 # 1); ("B", 150 # 1)]%Q
  /\ brand_counts sample_us = [("Goodyear", 2); ("Dunlop", 1)]
  /\ map (fun p => (fst p, this (snd p))) (brand_percentage sample_us)
     = [("Goodyear", 200 # 3); ("Dunlop", 100 # 3)]%Q
  /\ map (fun r => (top_brand r, option_map this (top_sales r), top_som r))
         (df_top_competitors sample_us)
     = [("C", Some (350 # 1), "35.0000%"); ("A", Some (300 # 1), "30.0000%");
        ("B", Some (150 # 1), "15.0000%")]%Q
  /\ top_competitor_callouts (df_top_competitors sample_us)
     = Ok (Some ("C", "35.0000%"))
  /\ map (fun p => (fst p, this (snd p)))
         (df_pattern_sales
            (df_competitor_pattern sample_us
               (selected_competitor (df_top_competitors sample_us) 1)))
     = [("A1", 180 # 1); ("A2", 120 # 1)]%Q
  /\ fitments sample_us = ["RAV4"; "CR-V"]
  /\ fitment_lines sample_us
     = [(check_mark ++ "RAV4")%string; (check_mark ++ "CR-V")%string].
Proof. repeat split. Qed.

(** ** Numeric cells *)

Lemma Qceqb_eq (x y : Qc) : Qceqb x y = true <-> x = y.
Proof.
  unfold Qceqb. rewrite Qeq_bool_iff. split.
  - apply Qc_is_canon.
  - intros ->. reflexivity.
Qed.

Lemma Qcleb_le (x y : Qc) : Qcleb x y = true <-> (x <= y)%Qc.
Proof. unfold Qcleb, Qcle. apply Qle_bool_iff. Qed.

Lemma Qcleb_total (x y : Qc) : Qcleb x y = true \/ Qcleb y x = true.
Proof.
  rewrite !Qcleb_le. destruct (Qclt_le_dec x y) as [H | H].
  - left. apply Qclt_le_weak, H.
  - right. exact H.
Qed.

Lemma eqb_SQ_eq (a b : string * Qc) : eqb_SQ a b = true <-> a = b.
Proof.
  destruct a as [s x], b as [t y]. unfold eqb_SQ. simpl.
  rewrite andb_true_iff, String.eqb_eq, Qceqb_eq.
  split; [intros [-> ->]; reflexivity | intros [= -> ->]; auto].
Qed.

Lemma eqb_QQ_eq (a b : Qc * Qc) : eqb_QQ a b = true <-> a = b.
Proof.
  destruct a as [s x], b as [t y]. unfold eqb_QQ. simpl.
  rewrite andb_true_iff, !Qceqb_eq.
  split; [intros [-> ->]; reflexivity | intros [= -> ->]; auto].
Qed.

Lemma eqb_SQQ_eq (a b : string * Qc * Qc) : eqb_SQQ a b = true <-> a = b.
Proof.
  destruct a as [p x], b as [q y]. unfold eqb_SQQ. simpl.
  rewrite andb_true_iff, eqb_SQ_eq, Qceqb_eq.
  split; [intros [-> ->]; reflexivity | intros [= -> ->]; auto].
Qed.

(** ** Deduplication *)

Section DropDuplicates.
Variable A : Type.
Variable eqb : A -> A -> bool.
Hypothesis eqb_eq : forall x y, eqb x y = true <-> x = y.

Lemma seen_In (x : A) (seen : list A) :
  existsb (eqb x) seen = true <-> In x seen.
Proof.
  rewrite existsb_exists. split.
  - intros [y [Hy E]]. apply eqb_eq in E. subst. exact Hy.
  - intros H. exists x. split; [exact H | apply eqb_eq; reflexivity].
Qed.

Lemma seen_not_In (x : A) (seen : list A) :
  existsb (eqb x) seen = false <-> ~ In x seen.
Proof.
  rewrite <- seen_In. destruct (existsb (eqb x) seen); split; congruence.
Qed.

Lemma drop_duplicates_from_In (l seen : list A) (x : A) :
  In x (Pandas.drop_duplicates_from eqb seen l) <-> In x l /\ ~ In x seen.
Proof.
  revert seen. induction l as [| y t IH]; intros seen; simpl.
  - tauto.
  - destruct (existsb (eqb y) seen) eqn:E.
    + apply seen_In in E. rewrite IH. split.
      * tauto.
      * intros [[-> | H] Hn]; [contradiction | tauto].
    + apply seen_not_In in E. simpl. rewrite IH. simpl. split.
      * intros [-> | [H Hn]]; [tauto | tauto].
      * intros [[-> | H] Hn]; [tauto |].
        destruct (eqb y x) eqn:Eyx.
        -- apply eqb_eq in Eyx. tauto.
        -- right. split; [exact H |]. intros [-> | Hs]; [| tauto].
           assert (eqb x x = true) by (apply eqb_eq; reflexivity). congruence.
Qed.

Lemma drop_duplicates_In (l : list A) (x : A) :
  In x (Pandas.drop_duplicates eqb l) <-> In x l.
Proof. unfold Pandas.drop_duplicates. rewrite drop_duplicates_from_In. simpl. tauto. Qed.

Lemma drop_duplicates_from_NoDup (l seen : list A) :
  NoDup (Pandas.drop_duplicates_from eqb seen l).
Proof.
  revert seen. induction l as [| y t IH]; intros seen; simpl.
  - constructor.
  - destruct (existsb (eqb y) seen); [apply IH |].
    constructor; [| apply IH].
    rewrite drop_duplicates_from_In. simpl. tauto.
Qed.

Lemma drop_duplicates_NoDup (l : list A) : NoDup (Pandas.drop_duplicates eqb l).
Proof. apply drop_duplicates_from_NoDup. Qed.

Lemma drop_duplicates_from_length (l seen : list A) :
  List.length (Pandas.drop_duplicates_from eqb seen l) <= List.length l.
Proof.
  revert seen. induction l as [| y t IH]; intros seen; simpl; [lia |].
  destruct (existsb (eqb y) seen); simpl.
  - specialize (IH seen). lia.
  - specialize (IH (y :: seen)). lia.
Qed.

(** Filtering commutes with deduplication. *)
Lemma drop_duplicates_from_filter (p : A -> bool) (l seen seen' : list A) :
  (forall x, p x = true -> (In x seen <-> In x seen')) ->
  filter p (Pandas.drop_duplicates_from eqb seen l)
  = Pandas.drop_duplicates_from eqb seen' (filter p l).
Proof.
  revert seen seen'. induction l as [| y t IH]; intros seen seen' Hs; simpl.
  - reflexivity.
  - destruct (p y) eqn:Py; simpl.
    + destruct (existsb (eqb y) seen) eqn:E.
      * apply seen_In in E. apply (Hs y Py) in E. apply seen_In in E.
        rewrite E. apply IH, Hs.
      * assert (E' : existsb (eqb y) seen' = false).
        { apply seen_not_In. apply seen_not_In in E. rewrite <- (Hs y Py). exact E. }
        rewrite E'. simpl. rewrite Py. f_equal. apply IH.
        intros x Px. simpl. rewrite (Hs x Px). tauto.
    + destruct (existsb (eqb y) seen) eqn:E.
      * apply IH, Hs.
      * simpl. rewrite Py. apply IH. intros x Px. simpl. rewrite <- (Hs x Px).
        split; [| tauto]. intros [-> | H]; [congruence | exact H].
Qed.

Lemma drop_duplicates_filter (p : A -> bool) (l : list A) :
  filter p (Pandas.drop_duplicates eqb l) = Pandas.drop_duplicates eqb (filter p l).
Proof. apply drop_duplicates_from_filter. tauto. Qed.

(** Reading one more value: it is appended when it is new. *)
Lemma drop_duplicates_from_snoc (l seen : list A) (x : A) :
  Pandas.drop_duplicates_from eqb seen (l ++ [x])
  = Pandas.drop_duplicates_from eqb seen l
    ++ (if existsb (eqb x) seen || existsb (eqb x) l then [] else [x]).
Proof.
  revert seen. induction l as [| y t IH]; intros seen; simpl.
  - rewrite orb_false_r. destruct (existsb (eqb x) seen); reflexivity.
  - destruct (existsb (eqb y) seen) eqn:E.
    + rewrite IH. f_equal.
      destruct (eqb x y) eqn:Exy; [| reflexivity].
      apply eqb_eq in Exy. subst y. rewrite E. reflexivity.
    + simpl. rewrite IH. simpl. do 2 f_equal.
      destruct (eqb x y), (existsb (eqb x) seen), (existsb (eqb x) t); reflexivity.
Qed.

Lemma drop_duplicates_snoc (l : list A) (x : A) :
  Pandas.drop_duplicates eqb (l ++ [x])
  = Pandas.drop_duplicates eqb l ++ (if existsb (eqb x) l then [] else [x]).
Proof. unfold Pandas.drop_duplicates. rewrite drop_duplicates_from_snoc. reflexivity. Qed.
End DropDuplicates.

Arguments seen_In {A eqb} eqb_eq x seen.
Arguments seen_not_In {A eqb} eqb_eq x seen.
Arguments drop_duplicates_from_In {A eqb} eqb_eq l seen x.
Arguments drop_duplicates_In {A eqb} eqb_eq l x.
Arguments drop_duplicates_NoDup {A eqb} eqb_eq l.
Arguments drop_duplicates_filter {A eqb} eqb_eq p l.
Arguments drop_duplicates_snoc {A eqb} eqb_eq l x.

(** Projecting the rows commutes with deduplication when the projection
    tells the rows at hand apart. *)
Section DropDuplicatesMap.
Variables A B : Type.
Variable eqbA : A -> A -> bool.
Variable eqbB : B -> B -> bool.
Hypothesis eqbA_eq : forall x y, eqbA x y = true <-> x = y.
Hypothesis eqbB_eq : forall x y, eqbB x y = true <-> x = y.
Variable f : A -> B.

Lemma drop_duplicates_from_map (l seen : list A) :
  (forall x y, In x (l ++ seen) -> In y (l ++ seen) -> f x = f y -> x = y) ->
  map f (Pandas.drop_duplicates_from eqbA seen l)
  = Pandas.drop_duplicates_from eqbB (map f seen) (map f l).
Proof.
  revert seen. induction l as [| y t IH]; intros seen Hinj; simpl.
  - reflexivity.
  - assert (E : existsb (eqbB (f y)) (map f seen) = existsb (eqbA y) seen).
    { destruct (existsb (eqbA y) seen) eqn:Ey.
      - apply (seen_In eqbA_eq) in Ey. apply (seen_In eqbB_eq).
        apply in_map, Ey.
      - apply (seen_not_In eqbA_eq) in Ey. apply (seen_not_In eqbB_eq).
        intros H. apply in_map_iff in H. destruct H as [z [Hz Hin]].
        apply Ey. rewrite <- (Hinj z y); auto.
        + simpl. right. apply in_or_app. right. exact Hin.
        + simpl. left. reflexivity. }
    rewrite E. destruct (existsb (eqbA y) seen).
    + apply IH. intros a b Ha Hb. apply Hinj; simpl; right; assumption.
    + simpl. f_equal. apply (IH (y :: seen)).
      intros a b Ha Hb. apply Hinj.
      * apply in_app_or in Ha. simpl in *. rewrite in_app_iff. tauto.
      * apply in_app_or in Hb. simpl in *. rewrite in_app_iff. tauto.
Qed.

Lemma drop_duplicates_map (l : list A) :
  (forall x y, In x l -> In y l -> f x = f y -> x = y) ->
  map f (Pandas.drop_duplicates eqbA l) = Pandas.drop_duplicates eqbB (map f l).
Proof.
  intros H. apply (drop_duplicates_from_map l []).
  intros x y. rewrite !app_nil_r. apply H.
Qed.
End DropDuplicatesMap.

Arguments drop_duplicates_map {A B eqbA eqbB} eqbA_eq eqbB_eq f l.

Lemma filter_map_comm (A B : Type) (f : A -> B) (p : B -> bool) (l : list A) :
  filter p (map f l) = map f (filter (fun a => p (f a)) l).
Proof.
  induction l as [| a t IH]; simpl; [reflexivity |].
  destruct (p (f a)); simpl; rewrite IH; reflexivity.
Qed.

(** ** Sorting *)

Section SortValues.
Variable A : Type.
Variable leb : A -> A -> bool.
Hypothesis leb_total : forall x y, leb x y = true \/ leb y x = true.
Hypothesis leb_trans : forall x y z, leb x y = true -> leb y z = true -> leb x z = true.

Lemma insert_perm (x : A) (l : list A) : Permutation (Pandas.insert leb x l) (x :: l).
Proof.
  induction l as [| y t IH]; simpl.
  - apply Permutation_refl.
  - destruct (leb x y).
    + apply Permutation_refl.
    + apply perm_trans with (y :: x :: t).
      * apply perm_skip, IH.
      * apply perm_swap.
Qed.

Lemma sort_values_perm (l : list A) : Permutation (Pandas.sort_values leb l) l.
Proof.
  induction l as [| x t IH]; simpl.
  - apply perm_nil.
  - apply perm_trans with (x :: Pandas.sort_values leb t).
    + apply insert_perm.
    + apply perm_skip, IH.
Qed.

Lemma insert_sorted (x : A) (l : list A) :
  StronglySorted (fun a b => leb a b = true) l ->
  StronglySorted (fun a b => leb a b = true) (Pandas.insert leb x l).
Proof.
  induction l as [| y t IH]; intros Hs; simpl.
  - constructor; constructor.
  - inversion Hs as [| ? ? Ht Hy]; subst.
    destruct (leb x y) eqn:E.
    + constructor; [exact Hs |]. constructor; [exact E |].
      eapply Forall_impl; [| exact Hy]. intros z Hz. eapply leb_trans; eauto.
    + constructor; [apply IH, Ht |].
      apply (Permutation_Forall (Permutation_sym (insert_perm x t))).
      constructor; [| exact Hy].
      destruct (leb_total x y) as [H | H]; [congruence | exact H].
Qed.

Lemma sort_values_sorted (l : list A) :
  StronglySorted (fun a b => leb a b = true) (Pandas.sort_values leb l).
Proof.
  induction l as [| x t IH]; simpl.
  - constructor.
  - apply insert_sorted, IH.
Qed.
End SortValues.

Arguments sort_values_perm {A} leb l.
Arguments sort_values_sorted {A leb} leb_total leb_trans l.

(** ** Keeping the first rows of a sorted frame *)

Section Head.
Variable A : Type.
Variable R : A -> A -> Prop.

Lemma sorted_app (l1 l2 : list A) :
  StronglySorted R (l1 ++ l2) ->
  StronglySorted R l1 /\ (forall x y, In x l1 -> In y l2 -> R x y).
Proof.
  induction l1 as [| a t IH]; simpl; intros Hs.
  - split; [constructor | intros x y []].
  - inversion Hs as [| ? ? Ht Ha]; subst.
    destruct (IH Ht) as [Hs1 Hx]. rewrite Forall_app in Ha. destruct Ha as [Ha1 Ha2].
    split.
    + constructor; assumption.
    + intros x y [<- | Hin] Hy.
      * rewrite Forall_forall in Ha2. apply Ha2, Hy.
      * apply Hx; assumption.
Qed.

Lemma head_length (n : nat) (l : list A) : List.length (Pandas.head n l) <= n.
Proof. apply firstn_le_length. Qed.

Lemma head_sorted (n : nat) (l : list A) :
  StronglySorted R l -> StronglySorted R (Pandas.head n l).
Proof.
  intros Hs. rewrite <- (firstn_skipn n l) in Hs.
  apply sorted_app in Hs. apply Hs.
Qed.

Lemma head_In (n : nat) (l : list A) (x : A) : In x (Pandas.head n l) -> In x l.
Proof. intros H. rewrite <- (firstn_skipn n l). apply in_or_app. left. exact H. Qed.

(** A row of a sorted frame is among the first [n], or the first [n] are
    full and each of them stands before it. *)
Lemma head_cut (n : nat) (l : list A) (x : A) :
  StronglySorted R l -> In x l ->
  In x (Pandas.head n l)
  \/ (List.length (Pandas.head n l) = n /\ forall y, In y (Pandas.head n l) -> R y x).
Proof.
  intros Hs Hin. rewrite <- (firstn_skipn n l) in Hs, Hin.
  apply sorted_app in Hs. destruct Hs as [_ Hs].
  apply in_app_or in Hin. destruct Hin as [Hin | Hin]; [left; exact Hin | right].
  split.
  - unfold Pandas.head. apply firstn_length_le.
    destruct (Nat.le_gt_cases n (List.length l)) as [H | H]; [exact H |].
    rewrite skipn_all2 in Hin by lia. destruct Hin.
  - intros y Hy. apply Hs; assumption.
Qed.

Lemma head_NoDup (B : Type) (f : A -> B) (n : nat) (l : list A) :
  NoDup (map f l) -> NoDup (map f (Pandas.head n l)).
Proof.
  intros H. rewrite <- (firstn_skipn n l), map_app in H.
  apply NoDup_app_remove_r in H. exact H.
Qed.
End Head.

Arguments head_length {A} n l.
Arguments head_sorted {A R} n l.
Arguments head_In {A} n l x.
Arguments head_cut {A R} n l x.
Arguments head_NoDup {A B} f n l.

Lemma sorted_impl (A : Type) (R R' : A -> A -> Prop) (l : list A) :
  (forall a b, In a l -> In b l -> R a b -> R' a b) ->
  StronglySorted R l -> StronglySorted R' l.
Proof.
  induction l as [| x t IH]; intros H Hs.
  - constructor.
  - inversion Hs as [| ? ? Ht Hx]; subst. constructor.
    + apply IH; [| exact Ht]. intros a b Ha Hb. apply H; simpl; auto.
    + rewrite Forall_forall in Hx |- *. intros y Hy.
      apply H; simpl; auto.
Qed.

(** ** Grouping *)

Section GroupBy.
Variable R : Type.
Variable key : R -> string.
Variable rows : list R.

Lemma groupby_keys :
  Permutation (map fst (Pandas.groupby key rows))
              (Pandas.unique String.eqb (map key rows)).
Proof.
  unfold Pandas.groupby. rewrite map_map. simpl. rewrite map_id.
  apply sort_values_perm.
Qed.

Lemma groupby_keys_NoDup : NoDup (map fst (Pandas.groupby key rows)).
Proof.
  apply (Permutation_NoDup (Permutation_sym groupby_keys)).
  apply (drop_duplicates_NoDup String.eqb_eq).
Qed.

Lemma groupby_keys_In (k : string) :
  In k (map fst (Pandas.groupby key rows)) <-> exists r, In r rows /\ key r = k.
Proof.
  split.
  - intros H. apply (Permutation_in _ groupby_keys) in H.
    unfold Pandas.unique in H. rewrite (drop_duplicates_In String.eqb_eq) in H.
    apply in_map_iff in H. destruct H as [r [E Hr]]. eauto.
  - intros [r [Hr E]]. apply (Permutation_in _ (Permutation_sym groupby_keys)).
    unfold Pandas.unique. rewrite (drop_duplicates_In String.eqb_eq).
    subst k. apply in_map, Hr.
Qed.

Lemma groupby_In (k : string) (g : list R) :
  In (k, g) (Pandas.groupby key rows)
  <-> In k (map fst (Pandas.groupby key rows))
      /\ g = filter (fun r => String.eqb (key r) k) rows.
Proof.
  unfold Pandas.groupby. rewrite map_map. simpl. rewrite map_id, in_map_iff. split.
  - intros [k' [[= <- <-] Hk]]. split; [exact Hk | reflexivity].
  - intros [Hk ->]. exists k. split; [reflexivity | exact Hk].
Qed.
End GroupBy.

Arguments groupby_keys {R} key rows.
Arguments groupby_keys_NoDup {R} key rows.
Arguments groupby_keys_In {R} key rows k.
Arguments groupby_In {R} key rows k g.

(** An aggregate over the groups: one row per key, keys distinct. *)
Lemma groupby_agg_keys (R B : Type) (key : R -> string) (agg : list R -> B)
    (rows : list R) :
  map fst (map (fun g => (fst g, agg (snd g))) (Pandas.groupby key rows))
  = map fst (Pandas.groupby key rows).
Proof. rewrite map_map. reflexivity. Qed.

Lemma groupby_agg_In (R B : Type) (key : R -> string) (agg : list R -> B)
    (rows : list R) (k : string) (v : B) :
  In (k, v) (map (fun g => (fst g, agg (snd g))) (Pandas.groupby key rows))
  <-> (exists r, In r rows /\ key r = k)
      /\ v = agg (filter (fun r => String.eqb (key r) k) rows).
Proof.
  rewrite in_map_iff. split.
  - intros [[k' g] [[= <- <-] Hg]]. simpl. apply groupby_In in Hg.
    destruct Hg as [Hk ->]. apply groupby_keys_In in Hk. split; [exact Hk | reflexivity].
  - intros [Hk ->]. exists (k, filter (fun r => String.eqb (key r) k) rows).
    split; [reflexivity |]. apply groupby_In. split; [| reflexivity].
    apply groupby_keys_In, Hk.
Qed.

Arguments groupby_agg_keys {R B} key agg rows.
Arguments groupby_agg_In {R B} key agg rows k v.

(** ** Fixed-point formatting *)

Lemma round_half_even_near (n : Z) (d : positive) :
  (2 * (Fmt.round_half_even (n # d) * Z.pos d - n) <= Z.pos d
   /\ 2 * (n - Fmt.round_half_even (n # d) * Z.pos d) <= Z.pos d)%Z.
Proof.
  unfold Fmt.round_half_even. cbn [Qnum Qden].
  assert (Hd : (0 < Z.pos d)%Z) by lia.
  pose proof (Z.div_mod n (Z.pos d) ltac:(lia)) as E.
  pose proof (Z.mod_pos_bound n (Z.pos d) Hd) as Hr.
  destruct (Z.compare_spec (2 * (n mod Z.pos d)) (Z.pos d)) as [C | C | C].
  - destruct (Z.even (n / Z.pos d)); nia.
  - nia.
  - nia.
Qed.

Lemma string_length_append (s t : string) :
  String.length (s ++ t)%string = String.length s + String.length t.
Proof. induction s as [| c s IH]; simpl; [reflexivity | rewrite IH; reflexivity]. Qed.

Lemma digits_length (d : nat) (n : Z) : String.length (Fmt.digits d n) = d.
Proof.
  revert n. induction d as [| d IH]; intros n; simpl; [reflexivity |].
  rewrite string_length_append, IH. simpl. lia.
Qed.

Lemma round_half_even_nonneg (q : Q) : (0 <= q)%Q -> (0 <= Fmt.round_half_even q)%Z.
Proof.
  destruct q as [n d]. unfold Qle, Fmt.round_half_even. cbn [Qnum Qden]. intros H0.
  assert (Hfl : (0 <= n / Z.pos d)%Z) by (apply Z.div_pos; lia).
  destruct (2 * (n mod Z.pos d) ?= Z.pos d)%Z; [destruct (Z.even _) | |]; lia.
Qed.

Lemma quantize_nonneg (d : nat) (x : Qc) : (0 <= x)%Qc -> (0 <= Fmt.quantize d x)%Z.
Proof.
  intros H. unfold Fmt.quantize. apply round_half_even_nonneg.
  apply Qmult_le_0_compat; [exact H |].
  assert (Hp : (0 <= 10 ^ Z.of_nat d)%Z) by (apply Z.pow_nonneg; lia).
  unfold Qle, inject_Z. cbn [Qnum Qden]. lia.
Qed.

(** The number written is less than a unit away from the exact value. *)
Lemma quantize_close (d : nat) (x : Qc) :
  (x * inject_Z (10 ^ Z.of_nat d) - 1 < inject_Z (Fmt.quantize d x))%Q
  /\ (inject_Z (Fmt.quantize d x) < x * inject_Z (10 ^ Z.of_nat d) + 1)%Q.
Proof.
  unfold Fmt.quantize.
  destruct (this x * inject_Z (10 ^ Z.of_nat d))%Q as [n p].
  destruct (round_half_even_near n p) as [H1 H2].
  set (m := Fmt.round_half_even (n # p)) in *.
  unfold Qlt, Qminus, Qplus, Qopp, inject_Z. cbn [Qnum Qden].
  rewrite ?Pos2Z.inj_mul. split; lia.
Qed.

(** *** Reading back what the formatting wrote *)

Lemma string_append_assoc (a b c : string) :
  ((a ++ b) ++ c = a ++ b ++ c)%string.
Proof. induction a as [| x a IH]; simpl; [reflexivity | rewrite IH; reflexivity]. Qed.

Lemma digit_value_digit (k : Z) :
  (0 <= k < 10)%Z -> digit_value (Fmt.digit k) = Some (Z.to_N k).
Proof.
  intros H.
  assert (E : (k = 0 \/ k = 1 \/ k = 2 \/ k = 3 \/ k = 4 \/ k = 5 \/ k = 6
               \/ k = 7 \/ k = 8 \/ k = 9)%Z) by lia.
  repeat (destruct E as [-> | E]; [reflexivity |]). subst k. reflexivity.
Qed.

Lemma read_digits_from_app (s t : string) (acc : N) :
  read_digits_from acc (s ++ t)
  = match read_digits_from acc s with
    | Some a => read_digits_from a t
    | None => None
    end.
Proof.
  revert acc. induction s as [| c s IH]; intros acc; simpl; [reflexivity |].
  destruct (digit_value c); [apply IH | reflexivity].
Qed.

Lemma read_digits_from_digits (d : nat) (j : Z) (acc : N) :
  read_digits_from acc (Fmt.digits d j)
  = Some (acc * 10 ^ N.of_nat d + Z.to_N (j mod 10 ^ Z.of_nat d))%N.
Proof.
  revert j acc. induction d as [| d IH]; intros j acc.
  - simpl. rewrite Z.mod_1_r. f_equal. lia.
  - cbn [Fmt.digits]. rewrite read_digits_from_app, IH. cbn [read_digits_from].
    rewrite digit_value_digit by (apply Z.mod_pos_bound; lia). f_equal.
    assert (Hp : (0 < 10 ^ Z.of_nat d)%Z) by (apply Z.pow_pos_nonneg; lia).
    pose proof (Z.mod_pos_bound (j / 10) (10 ^ Z.of_nat d) Hp) as H1.
    pose proof (Z.mod_pos_bound j 10 ltac:(lia)) as H2.
    replace (Z.of_nat (S d)) with (Z.succ (Z.of_nat d)) by lia.
    rewrite Z.pow_succ_r by lia.
    rewrite (Z.rem_mul_r j 10 (10 ^ Z.of_nat d)) by lia.
    replace (N.of_nat (S d)) with (N.succ (N.of_nat d)) by lia.
    rewrite N.pow_succ_r by lia.
    apply N2Z.inj. rewrite !N2Z.inj_add, !N2Z.inj_mul, !N2Z.inj_add, !N2Z.inj_mul.
    rewrite !Z2N.id by lia. ring.
Qed.

Lemma read_uint_acc (u : Decimal.uint) (p : positive) :
  read_digits_from (N.pos p) (NilEmpty.string_of_uint u)
  = Some (N.pos (Pos.of_uint_acc u p)).
Proof.
  revert p. induction u as [| u IH | u IH | u IH | u IH | u IH | u IH | u IH | u IH
                            | u IH | u IH]; intros p; cbn [NilEmpty.string_of_uint];
    [reflexivity | ..];
    cbn [read_digits_from Pos.of_uint_acc];
    match goal with
    | |- context [digit_value ?c] =>
        let v := eval vm_compute in (digit_value c) in
        change (digit_value c) with v; cbv iota
    end;
    rewrite <- IH; f_equal; lia.
Qed.

Lemma read_uint (u : Decimal.uint) :
  read_digits_from 0 (NilEmpty.string_of_uint u) = Some (Pos.of_uint u).
Proof.
  induction u as [| u IH | u IH | u IH | u IH | u IH | u IH | u IH | u IH
                  | u IH | u IH]; cbn [NilEmpty.string_of_uint];
    [reflexivity | exact IH | ..];
    cbn [read_digits_from Pos.of_uint];
    match goal with
    | |- context [digit_value ?c] =>
        let v := eval vm_compute in (digit_value c) in
        change (digit_value c) with v; cbv iota
    end;
    apply (read_uint_acc u).
Qed.

Lemma read_digits_whole (k : N) :
  read_digits (NilEmpty.string_of_uint (N.to_uint k)) = Some k.
Proof.
  assert (H : read_digits (NilEmpty.string_of_uint (N.to_uint k))
              = read_digits_from 0 (NilEmpty.string_of_uint (N.to_uint k))).
  { destruct k as [| p]; [reflexivity |]. simpl.
    pose proof (DecimalPos.Unsigned.to_uint_nonnil p) as Hn.
    destruct (Pos.to_uint p); [congruence | reflexivity ..]. }
  rewrite H, read_uint. f_equal. apply DecimalN.Unsigned.of_to.
Qed.

Lemma read_digits_decimals (d : nat) (j : Z) :
  read_digits (Fmt.digits (S d) j) = Some (Z.to_N (j mod 10 ^ Z.of_nat (S d))).
Proof.
  pose proof (digits_length (S d) j) as Hlen.
  pose proof (read_digits_from_digits (S d) j 0) as H.
  destruct (Fmt.digits (S d) j); [discriminate Hlen |].
  unfold read_digits. rewrite H. f_equal.
Qed.

(** A non-negative value formatted with at least one decimal and followed by
    the percent sign shows its rounded value. *)
Lemma format_f_shows (d : nat) (x : Qc) :
  (0 <= x)%Qc ->
  shows_percent (S d) (Fmt.format_f (S d) x ++ "%")%string (Fmt.quantize (S d) x).
Proof.
  intros Hx. pose proof (quantize_nonneg (S d) x Hx) as Hn.
  set (n := Fmt.quantize (S d) x) in *.
  assert (Hp : (0 < 10 ^ Z.of_nat (S d))%Z) by (apply Z.pow_pos_nonneg; lia).
  set (p := (10 ^ Z.of_nat (S d))%Z) in *.
  exists (NilEmpty.string_of_uint (N.to_uint (Z.to_N (n / p)))),
         (Fmt.digits (S d) (n mod p)), (Z.to_N (n / p)), (Z.to_N (n mod p)).
  split; [| split; [| split; [| split]]].
  - unfold Fmt.format_f. fold n. fold p.
    assert (Hb : Qle_bool 0 x = true) by (apply Qle_bool_iff, Hx).
    rewrite Hb, Z.abs_eq by exact Hn. cbn [String.append].
    rewrite !string_append_assoc. reflexivity.
  - apply digits_length.
  - apply read_digits_whole.
  - rewrite read_digits_decimals. fold p. rewrite Z.mod_mod by lia. reflexivity.
  - pose proof (Z.mod_pos_bound n p Hp) as Hr.
    assert (Hq : (0 <= n / p)%Z) by (apply Z.div_pos; lia).
    rewrite N2Z.inj_add, N2Z.inj_mul, N2Z.inj_pow, !Z2N.id by lia.
    rewrite nat_N_Z. fold p. change (Z.of_N 10) with 10%Z. fold p.
    rewrite (Z.div_mod n p) at 1 by lia. ring.
Qed.

(** ** The script's deduplication, sum and mean are those of the specification *)

Section Distinct.
Variable A : Type.
Variable eqb : A -> A -> bool.
Variable dec : forall x y : A, {x = y} + {x <> y}.
Hypothesis eqb_eq : forall x y, eqb x y = true <-> x = y.

Lemma drop_duplicates_distinct (l : list A) :
  Pandas.drop_duplicates eqb l = distinct dec l.
Proof.
  induction l as [| x l IH] using rev_ind; [reflexivity |].
  rewrite (drop_duplicates_snoc eqb_eq), IH. unfold distinct.
  rewrite rev_app_distr. cbn [rev app nodup].
  destruct (in_dec dec x (rev l)) as [Hin | Hn].
  - rewrite <- in_rev in Hin. apply (seen_In eqb_eq) in Hin. rewrite Hin.
    apply app_nil_r.
  - rewrite <- in_rev in Hn. apply (seen_not_In eqb_eq) in Hn. rewrite Hn.
    reflexivity.
Qed.
End Distinct.

Arguments drop_duplicates_distinct {A eqb} dec eqb_eq l.

Lemma mean_average (xs : list Qc) : Pandas.mean xs = average xs.
Proof. destruct xs; reflexivity. Qed.

Lemma brand_sales_total_sum (dff : DataFrame) (b : string) :
  brand_sales_total dff b = brand_sales_sum dff b.
Proof.
  unfold brand_sales_total, brand_sales_sum, brand_rows.
  rewrite (drop_duplicates_distinct Qc_eq_dec Qceqb_eq). reflexivity.
Qed.

Lemma brand_mean_share_mean (dff : DataFrame) (b : string) :
  Pandas.mean (map snd (brand_sales_som dff b)) = brand_mean_share dff b.
Proof.
  unfold brand_sales_som, brand_mean_share, brand_rows.
  rewrite (drop_duplicates_distinct QQ_eq_dec eqb_QQ_eq). apply mean_average.
Qed.

Lemma market_share_average (dff : DataFrame) :
  market_share dff = average (distinct Qc_eq_dec (map SOM_OF_BRAND dff)).
Proof.
  unfold market_share.
  rewrite (drop_duplicates_distinct Qc_eq_dec Qceqb_eq). apply mean_average.
Qed.

(** ** The competitor sales ranking *)

(** The deduplicated (brand, sales) rows of one brand are the brand's
    distinct sales figures. *)
Lemma brand_group_sales (dff : DataFrame) (b : string) :
  map snd
    (filter (fun p => String.eqb (fst p) b)
       (Pandas.drop_duplicates eqb_SQ
          (map (fun r => (COMPETITOR_BRAND r, COMPETITOR_BRAND_SALES r)) dff)))
  = Pandas.drop_duplicates Qceqb (map COMPETITOR_BRAND_SALES (brand_rows dff b)).
Proof.
  rewrite (drop_duplicates_filter eqb_SQ_eq), filter_map_comm. simpl.
  fold (brand_rows dff b).
  rewrite (drop_duplicates_map eqb_SQ_eq Qceqb_eq).
  - rewrite map_map. reflexivity.
  - intros [b1 s1] [b2 s2] H1 H2. simpl. intros ->.
    apply in_map_iff in H1, H2.
    destruct H1 as [r1 [[= <- _] Hr1]]. destruct H2 as [r2 [[= <- _] Hr2]].
    apply filter_In in Hr1, Hr2.
    destruct Hr1 as [_ E1], Hr2 as [_ E2]. apply String.eqb_eq in E1, E2.
    congruence.
Qed.

Lemma competitor_groups_In (dff : DataFrame) (b : string) (s : Qc) :
  In (b, s)
     (map (fun g => (fst g, Pandas.sum (map snd (snd g))))
        (Pandas.groupby fst
           (Pandas.drop_duplicates eqb_SQ
              (map (fun r => (COMPETITOR_BRAND r, COMPETITOR_BRAND_SALES r)) dff))))
  <-> (exists r, In r dff /\ COMPETITOR_BRAND r = b) /\ s = brand_sales_total dff b.
Proof.
  rewrite (groupby_agg_In fst (fun g => Pandas.sum (map snd g))).
  rewrite brand_group_sales. fold (brand_sales_total dff b).
  split; intros [H ->]; (split; [| reflexivity]).
  - destruct H as [p [Hp E]]. rewrite (drop_duplicates_In eqb_SQ_eq) in Hp.
    apply in_map_iff in Hp. destruct Hp as [r [<- Hr]]. exists r. auto.
  - destruct H as [r [Hr E]].
    exists (COMPETITOR_BRAND r, COMPETITOR_BRAND_SALES r). split; [| exact E].
    rewrite (drop_duplicates_In eqb_SQ_eq). apply in_map_iff. eauto.
Qed.

Lemma by_sales_total (a b : string * Qc) :
  Qcleb (snd b) (snd a) = true \/ Qcleb (snd a) (snd b) = true.
Proof. apply Qcleb_total. Qed.

Lemma by_sales_trans (a b c : string * Qc) :
  Qcleb (snd b) (snd a) = true -> Qcleb (snd c) (snd b) = true ->
  Qcleb (snd c) (snd a) = true.
Proof. rewrite !Qcleb_le. intros H1 H2. eapply Qcle_trans; eauto. Qed.



(** ** The top-10 competitor table *)

Lemma max_spec (l : list Qc) (m : Qc) :
  Pandas.max l = Some m -> In m l /\ forall x, In x l -> (x <= m)%Qc.
Proof.
  revert m. induction l as [| a t IH]; simpl; intros m H; [discriminate |].
  destruct (Pandas.max t) as [m' |] eqn:E.
  - destruct (IH m' eq_refl) as [Hin Hle].
    destruct (Qcleb m' a) eqn:L; injection H as <-.
    + apply Qcleb_le in L. split; [auto |].
      intros x [<- | Hx]; [apply Qcle_refl |].
      eapply Qcle_trans; [apply Hle, Hx | exact L].
    + assert (L' : (a <= m')%Qc).
      { destruct (Qcleb_total m' a) as [H | H]; [congruence | apply Qcleb_le, H]. }
      split; [auto |]. intros x [<- | Hx]; [exact L' | apply Hle, Hx].
  - injection H as <-. destruct t as [| b t].
    + split; [auto |]. intros x [<- | []]. apply Qcle_refl.
    + simpl in E. destruct (Pandas.max t); discriminate.
Qed.

Lemma max_nonempty (l : list Qc) : l <> [] -> exists m, Pandas.max l = Some m.
Proof.
  destruct l as [| a t]; [congruence |]. intros _. simpl.
  destruct (Pandas.max t); eauto.
Qed.

(** The deduplicated (brand, sales, share) rows of one brand are the brand's
    distinct (sales, share) pairs. *)
Lemma brand_group_sales_som (dff : DataFrame) (b : string) :
  map (fun t => (snd (fst t), snd t))
    (filter (fun t : string * Qc * Qc => String.eqb (fst (fst t)) b)
       (Pandas.drop_duplicates eqb_SQQ
          (map (fun r => (COMPETITOR_BRAND r, COMPETITOR_BRAND_SALES r,
                          COMPETITOR_SOM r)) dff)))
  = brand_sales_som dff b.
Proof.
  rewrite (drop_duplicates_filter eqb_SQQ_eq), filter_map_comm. simpl.
  fold (brand_rows dff b).
  rewrite (drop_duplicates_map eqb_SQQ_eq eqb_QQ_eq).
  - rewrite map_map. reflexivity.
  - intros [[b1 s1] m1] [[b2 s2] m2] H1 H2. simpl. intros [= -> ->].
    apply in_map_iff in H1, H2.
    destruct H1 as [r1 [[= <- _ _] Hr1]]. destruct H2 as [r2 [[= <- _ _] Hr2]].
    apply filter_In in Hr1, Hr2.
    destruct Hr1 as [_ E1], Hr2 as [_ E2]. apply String.eqb_eq in E1, E2.
    congruence.
Qed.

Lemma brand_sales_som_In (dff : DataFrame) (b : string) (s m : Qc) :
  In (s, m) (brand_sales_som dff b)
  <-> exists r, In r dff /\ COMPETITOR_BRAND r = b
                /\ COMPETITOR_BRAND_SALES r = s /\ COMPETITOR_SOM r = m.
Proof.
  unfold brand_sales_som, brand_rows.
  rewrite (drop_duplicates_In eqb_QQ_eq), in_map_iff. split.
  - intros [r [[= <- <-] Hr]]. apply filter_In in Hr. destruct Hr as [Hr E].
    apply String.eqb_eq in E. exists r. auto.
  - intros [r [Hr [E [<- <-]]]]. exists r. split; [reflexivity |].
    apply filter_In. split; [exact Hr | apply String.eqb_eq, E].
Qed.

Lemma top_competitors_agg_keys (dff : DataFrame) :
  NoDup (map (fun t => fst (fst t)) (top_competitors_agg dff)).
Proof.
  unfold top_competitors_agg. rewrite map_map. simpl. apply groupby_keys_NoDup.
Qed.

Lemma top_competitors_agg_In (dff : DataFrame) (b : string) (s m : option Qc) :
  In (b, s, m) (top_competitors_agg dff)
  <-> (exists r, In r dff /\ COMPETITOR_BRAND r = b)
      /\ s = Pandas.max (map fst (brand_sales_som dff b))
      /\ m = Pandas.mean (map snd (brand_sales_som dff b)).
Proof.
  unfold top_competitors_agg.
  rewrite <- (brand_group_sales_som dff b), !map_map. simpl.
  rewrite in_map_iff. split.
  - intros [[k g] [[= <- <- <-] Hg]]. simpl in *. apply groupby_In in Hg.
    destruct Hg as [Hk ->]. apply groupby_keys_In in Hk.
    destruct Hk as [[[b' s'] m'] [Hp E]]. simpl in E. subst b'.
    rewrite (drop_duplicates_In eqb_SQQ_eq) in Hp.
    apply in_map_iff in Hp. destruct Hp as [r [[= <- _ _] Hr]].
    split; [eauto | split; reflexivity].
  - intros [[r [Hr E]] [-> ->]].
    eexists (b, _). simpl. split; [reflexivity |].
    apply groupby_In. split; [| reflexivity].
    apply groupby_keys_In.
    exists (COMPETITOR_BRAND r, COMPETITOR_BRAND_SALES r, COMPETITOR_SOM r).
    split; [| exact E].
    rewrite (drop_duplicates_In eqb_SQQ_eq). apply in_map_iff. eauto.
Qed.

Lemma top_rows_ok (dff : DataFrame) (row : TopRow) :
  In row (map top_row_of (top_competitors_agg dff)) -> top_row_ok dff row.
Proof.
  intros H. apply in_map_iff in H. destruct H as [[[b so] mo] [<- H]].
  apply top_competitors_agg_In in H. destruct H as [[r [Hr E]] [-> ->]].
  assert (Hin : In (COMPETITOR_BRAND_SALES r, COMPETITOR_SOM r) (brand_sales_som dff b)).
  { apply brand_sales_som_In. exists r. auto. }
  destruct (max_nonempty (map fst (brand_sales_som dff b))) as [s Hs].
  { intros Hnil. apply (in_map fst) in Hin. rewrite Hnil in Hin. destruct Hin. }
  assert (Hm : exists m, Pandas.mean (map snd (brand_sales_som dff b)) = Some m).
  { destruct (brand_sales_som dff b); [destruct Hin | simpl; eauto]. }
  destruct Hm as [m Hm]. exists s, m. unfold top_row_of. simpl.
  destruct (max_spec _ _ Hs) as [Hs_in Hs_le].
  split; [exact Hs | split; [| split; [| split]]].
  - apply in_map_iff in Hs_in. destruct Hs_in as [[s' m'] [Es Hp]]. simpl in Es. subst s'.
    apply brand_sales_som_In in Hp. destruct Hp as [r' [Hr' [Eb [Es _]]]]. eauto.
  - intros r' Hr' Eb. apply Hs_le.
    apply (in_map fst (brand_sales_som dff b) (COMPETITOR_BRAND_SALES r', COMPETITOR_SOM r')).
    apply brand_sales_som_In. exists r'. auto.
  - exact Hm.
  - rewrite Hm. reflexivity.
Qed.

Lemma top_rows_cover (dff : DataFrame) (r : Row) :
  In r dff ->
  exists row, In row (map top_row_of (top_competitors_agg dff))
              /\ top_brand row = COMPETITOR_BRAND r.
Proof.
  intros Hr.
  exists (top_row_of (COMPETITOR_BRAND r,
                      Pandas.max (map fst (brand_sales_som dff (COMPETITOR_BRAND r))),
                      Pandas.mean (map snd (brand_sales_som dff (COMPETITOR_BRAND r))))).
  split; [| reflexivity]. apply in_map. apply top_competitors_agg_In.
  split; [eauto | split; reflexivity].
Qed.

Lemma desc_nan_last_total (a b : option Qc) :
  desc_nan_last a b = true \/ desc_nan_last b a = true.
Proof.
  destruct a as [x |], b as [y |]; simpl; auto. destruct (Qcleb_total x y); auto.
Qed.

Lemma desc_nan_last_trans (a b c : option Qc) :
  desc_nan_last a b = true -> desc_nan_last b c = true -> desc_nan_last a c = true.
Proof.
  destruct a as [x |], b as [y |], c as [z |]; simpl; try congruence.
  rewrite !Qcleb_le. intros H1 H2. eapply Qcle_trans; eauto.
Qed.

Lemma df_top_competitors_rows (dff : DataFrame) (row : TopRow) :
  In row (df_top_competitors dff) -> top_row_ok dff row.
Proof.
  intros H. unfold df_top_competitors in H. apply head_In in H.
  apply (Permutation_in _ (sort_values_perm _ _)) in H.
  apply top_rows_ok, H.
Qed.

(** ** The filter stage *)

Lemma eq_sel_eq (cell : string) (selection : option string) :
  eq_sel cell selection = true <-> Some cell = selection.
Proof.
  destruct selection as [s |]; simpl.
  - rewrite String.eqb_eq. split; congruence.
  - split; discriminate.
Qed.

Lemma filter_selects (A : Type) (p : A -> bool) (P : A -> Prop) (l : list A) :
  (forall a, p a = true <-> P a) -> selects P l (filter p l).
Proof.
  intros H. induction l as [| a t IH]; simpl.
  - constructor.
  - destruct (p a) eqn:E.
    + apply selects_keep; [apply H, E | exact IH].
    + apply selects_drop; [| exact IH]. rewrite <- H. congruence.
Qed.

(** C7. The filter stage returns exactly the rows whose country cell and
    tire-size cell each equal the corresponding selection, character for
    character: the same rows, as often and in the same order as in the loaded
    table, and no others. *)
Theorem filter_stage_exact (df : DataFrame) (country size : option string) :
  let matches := fun r => Some (COUNTRY_OR_TERRITORY r) = country
                          /\ Some (TIRE_SIZE r) = size in
  selects matches df (df_filtered df country size)
  /\ (forall r, In r (df_filtered df country size) <-> In r df /\ matches r).
Proof.
  assert (H : forall r,
             eq_sel (COUNTRY_OR_TERRITORY r) country && eq_sel (TIRE_SIZE r) size = true
             <-> Some (COUNTRY_OR_TERRITORY r) = country /\ Some (TIRE_SIZE r) = size).
  { intros r. rewrite andb_true_iff, !eq_sel_eq. tauto. }
  cbv zeta. split.
  - apply filter_selects. exact H.
  - intros r. unfold df_filtered. rewrite filter_In, H. tauto.
Qed.

(** The comparison tells upper case from lower case. *)
Example filter_stage_case_sensitive :
  df_filtered sample (Some "us") (Some "P225/65R17") = []
  /\ List.length (df_filtered sample (Some "US") (Some "P225/65R17")) = 4.
Proof. split; reflexivity. Qed.

(** ** The fitments list *)

Lemma dropna_In (A : Type) (l : list (option A)) (a : A) :
  In a (Pandas.dropna l) <-> In (Some a) l.
Proof.
  induction l as [| [b |] t IH]; simpl.
  - tauto.
  - rewrite IH. split; intros [H | H]; auto; left; congruence.
  - rewrite IH. split; [auto | intros [H | H]; [discriminate | exact H]].
Qed.

Lemma dropna_snoc (A : Type) (l : list (option A)) (x : option A) :
  Pandas.dropna (l ++ [x])
  = Pandas.dropna l ++ match x with Some a => [a] | None => [] end.
Proof.
  induction l as [| [b |] t IH]; simpl.
  - destruct x; reflexivity.
  - rewrite IH. reflexivity.
  - exact IH.
Qed.

(** C8. The fitments list holds the distinct non-null values of the fitments
    column in the order of their first occurrence: a null cell adds nothing,
    a value already listed adds nothing, a new value is appended.  At most
    the first 5 are written, each verbatim after the check mark. *)
Theorem fitments_list (dff : DataFrame) :
  NoDup (fitments dff)
  /\ (forall f, In f (fitments dff)
                <-> exists r, In r dff /\ TOP_5_FITMENTS r = Some f)
  /\ fitments [] = []
  /\ (forall r, fitments (dff ++ [r])
                = match TOP_5_FITMENTS r with
                  | None => fitments dff
                  | Some f => if in_dec string_dec f (fitments dff)
                              then fitments dff
                              else fitments dff ++ [f]
                  end)
  /\ fitment_lines dff
     = map (fun f => (check_mark ++ f)%string) (firstn 5 (fitments dff))
  /\ List.length (fitment_lines dff) <= 5.
Proof.
  unfold fitment_lines, fitments, Pandas.unique.
  split; [| split; [| split; [| split; [| split]]]].
  - apply (drop_duplicates_NoDup String.eqb_eq).
  - intros f. rewrite (drop_duplicates_In String.eqb_eq), dropna_In, in_map_iff.
    split; intros [r H]; exists r; tauto.
  - reflexivity.
  - intros r. rewrite map_app. simpl. rewrite dropna_snoc.
    destruct (TOP_5_FITMENTS r) as [f |].
    + rewrite (drop_duplicates_snoc String.eqb_eq).
      destruct (in_dec string_dec f _) as [Hin | Hn].
      * rewrite (drop_duplicates_In String.eqb_eq) in Hin.
        apply (seen_In String.eqb_eq) in Hin. rewrite Hin. apply app_nil_r.
      * rewrite (drop_duplicates_In String.eqb_eq) in Hn.
        apply (seen_not_In String.eqb_eq) in Hn. rewrite Hn. reflexivity.
    + rewrite app_nil_r. reflexivity.
  - reflexivity.
  - rewrite length_map. apply head_length.
Qed.

(** ** The top-competitor callouts *)

Lemma top_competitor_callouts_ok (table : list TopRow) :
  top_competitor_callouts table = Ok (first_row_callouts table).
Proof. destruct table; reflexivity. Qed.

(** C10. The two callouts (brand and formatted share of the first row) are
    written exactly when the top-10 table is not empty; on an empty table
    nothing is written and the access to the first row, which would raise, is
    not made. *)
Theorem top_callouts_iff_nonempty (table : list TopRow) :
  (table <> [] <-> exists c, top_competitor_callouts table = Ok (Some c))
  /\ (table = [] <-> top_competitor_callouts table = Ok None)
  /\ (forall row rest, table = row :: rest ->
        top_competitor_callouts table = Ok (Some (top_brand row, top_som row)))
  /\ (forall e, top_competitor_callouts table <> Raise e)
  /\ Pandas.iloc0 (@nil TopRow) = Raise IndexError.
Proof.
  rewrite top_competitor_callouts_ok.
  split; [| split; [| split; [| split]]].
  - destruct table; simpl; split.
    + congruence.
    + intros [c H]. discriminate.
    + intros _. eauto.
    + discriminate.
  - destruct table; simpl; split; congruence.
  - intros row rest ->. reflexivity.
  - intros e. discriminate.
  - reflexivity.
Qed.

(** ** One run: nothing raises *)

Lemma run_ok (df : DataFrame) (i j k : nat) :
  let dff := df_filtered df (selected_countries df i) (selected_tire_size df j) in
  let top := df_top_competitors dff in
  exists page,
    run df i j k = Ok page
    /\ page_sales page = sales_data dff
    /\ page_metric page = market_share_text dff
    /\ page_competitor_sales page = df_competitor_sales dff
    /\ page_brand_pie page = brand_percentage dff
    /\ page_top_table page = top
    /\ page_callouts page = first_row_callouts top
    /\ page_competitor_options page = competitor_options top
    /\ page_pattern_pie page
       = df_pattern_sales (df_competitor_pattern dff (selected_competitor top k))
    /\ page_fitments page = fitment_lines dff.
Proof.
  cbv zeta. unfold run. rewrite top_competitor_callouts_ok. simpl.
  eexists. split; [reflexivity |]. simpl. repeat split.
Qed.

(** ** The competitor selector *)

Lemma selectbox_In (A : Type) (options : list A) (choice : nat) (a : A) :
  selectbox options choice = Some a -> In a options.
Proof. apply nth_error_In. Qed.

(** C9. The competitor selector offers the brand values of the current top-10
    table and nothing else, so a selected competitor is one of them and occurs
    as a competitor brand in the filtered table; every (pattern, pattern sales)
    row of the pattern breakdown comes from a row of the filtered table whose
    competitor brand is the selected one. *)
Theorem competitor_selector_closed (dff : DataFrame) (choice : nat) :
  let top := df_top_competitors dff in
  let selected := selected_competitor top choice in
  (forall c, In c (competitor_options top) <-> In c (map top_brand top))
  /\ (forall c, selected = Some c ->
        In c (competitor_options top)
        /\ exists r, In r dff /\ COMPETITOR_BRAND r = c)
  /\ (forall p s, In (p, s) (df_pattern_sales (df_competitor_pattern dff selected)) ->
        exists c r, selected = Some c /\ In c (map top_brand top)
                    /\ In r dff /\ COMPETITOR_BRAND r = c
                    /\ COMPETITOR_PATTERN r = p /\ COMPETITOR_PATTERN_SALES r = s)
  /\ (forall r c, In r dff -> selected = Some c -> COMPETITOR_BRAND r = c ->
        In (COMPETITOR_PATTERN r, COMPETITOR_PATTERN_SALES r)
           (df_pattern_sales (df_competitor_pattern dff selected)))
  /\ NoDup (df_pattern_sales (df_competitor_pattern dff selected)).
Proof.
  cbv zeta.
  assert (Hopt : forall c, In c (competitor_options (df_top_competitors dff))
                           <-> In c (map top_brand (df_top_competitors dff))).
  { intros c. unfold competitor_options, Pandas.unique.
    apply (drop_duplicates_In String.eqb_eq). }
  assert (Hsel : forall c, selected_competitor (df_top_competitors dff) choice = Some c ->
                           In c (map top_brand (df_top_competitors dff))).
  { intros c H. apply Hopt. apply selectbox_In in H. exact H. }
  split; [exact Hopt | split; [| split; [| split]]].
  - intros c H. split; [apply Hopt, Hsel, H |].
    apply Hsel in H. apply in_map_iff in H. destruct H as [row [<- Hrow]].
    destruct (df_top_competitors_rows dff row Hrow) as [s [m [_ [[r [Hr [E _]]] _]]]].
    eauto.
  - intros p s H. unfold df_pattern_sales in H.
    rewrite (drop_duplicates_In eqb_SQ_eq) in H. apply in_map_iff in H.
    destruct H as [r [[= <- <-] Hr]]. unfold df_competitor_pattern in Hr.
    apply filter_In in Hr. destruct Hr as [Hr E]. apply eq_sel_eq in E.
    exists (COMPETITOR_BRAND r), r. split; [congruence |].
    split; [apply Hsel; congruence | auto].
  - intros r c Hr Hc E. unfold df_pattern_sales.
    rewrite (drop_duplicates_In eqb_SQ_eq).
    apply (in_map (fun r => (COMPETITOR_PATTERN r, COMPETITOR_PATTERN_SALES r))).
    unfold df_competitor_pattern. apply filter_In. split; [exact Hr |].
    apply eq_sel_eq. congruence.
  - apply (drop_duplicates_NoDup eqb_SQ_eq).
Qed.

(** ** The scenario of two rows that share the industry and Goodyear sales *)

(** C6. Two rows for ("US", "P225/65R17") with total industry sales 1000 and
    Goodyear sales 200, competitor "A" with sales 300 in one and "B" with
    sales 150 in the other, whatever the other cells hold: with that country
    and size selected both rows pass the filter, the (industry, Goodyear)
    pair deduplicates to one row, the bar chart gets the two bars 1000 and
    200, and the competitor ranking is A = 300, B = 150. *)
Theorem shared_sales_scenario
    (som1 som2 csom1 csom2 psales1 psales2 : Qc)
    (name1 name2 fit1 fit2 : option string) (pattern1 pattern2 : string)
    (competitor_choice : nat) :
  let df :=
    [ mk_row "US" "P225/65R17" (of_Z 1000) (of_Z 200) som1
          "A" (of_Z 300) csom1 name1 pattern1 psales1 fit1;
      mk_row "US" "P225/65R17" (of_Z 1000) (of_Z 200) som2
          "B" (of_Z 150) csom2 name2 pattern2 psales2 fit2 ] in
  selected_countries df 0 = Some "US"
  /\ selected_tire_size df 0 = Some "P225/65R17"
  /\ df_filtered df (Some "US") (Some "P225/65R17") = df
  /\ Pandas.drop_duplicates eqb_QQ
       (map (fun r => (TOTAL_INDUSTRY_SALES r, GOODYEAR_SALES r)) df)
     = [(of_Z 1000, of_Z 200)]
  /\ exists page,
       run df 0 0 competitor_choice = Ok page
       /\ page_sales page
          = [("TOTAL_INDUSTRY_SALES", of_Z 1000); ("GOODYEAR_SALES", of_Z 200)]
       /\ page_competitor_sales page = [("A", of_Z 300); ("B", of_Z 150)].
Proof.
  cbv zeta.
  split; [reflexivity | split; [reflexivity | split; [reflexivity | split; [reflexivity |]]]].
  match goal with |- context [run ?df 0 0 ?k] =>
    destruct (run_ok df 0 0 k) as [page [Hrun [Hsales [_ [Hrank _]]]]]
  end.
  exists page. split; [exact Hrun |]. rewrite Hsales, Hrank.
  split; vm_compute; reflexivity.
Qed.

(** ** The brand distribution *)

Lemma list_sum_perm (l l' : list nat) : Permutation l l' -> list_sum l = list_sum l'.
Proof. induction 1; simpl; lia. Qed.

Section Counting.
Variable l : list string.

Lemma count_split (k : string) (ks : list string) (t : list string) :
  ~ In k ks ->
  List.length (filter (fun x => String.eqb x k || existsb (String.eqb x) ks) t)
  = List.length (filter (String.eqb k) t)
    + List.length (filter (fun x => existsb (String.eqb x) ks) t).
Proof.
  intros Hk. induction t as [| x t IH]; simpl; [reflexivity |].
  rewrite (String.eqb_sym k x). destruct (String.eqb x k) eqn:E; simpl.
  - apply String.eqb_eq in E. subst x.
    apply (seen_not_In String.eqb_eq) in Hk. rewrite Hk. simpl. lia.
  - destruct (existsb (String.eqb x) ks); simpl; lia.
Qed.

Lemma count_sum (ks : list string) :
  NoDup ks ->
  list_sum (map (fun k => List.length (filter (String.eqb k) l)) ks)
  = List.length (filter (fun x => existsb (String.eqb x) ks) l).
Proof.
  induction 1 as [| k ks Hk Hnd IH]; simpl.
  - induction l as [| x t IHt]; simpl; auto.
  - rewrite IH. symmetry. apply count_split, Hk.
Qed.

Lemma value_counts_keys :
  Permutation (map fst (Pandas.value_counts l)) (Pandas.unique String.eqb l).
Proof.
  unfold Pandas.value_counts.
  eapply perm_trans; [apply Permutation_map, sort_values_perm |].
  rewrite map_map. simpl. rewrite map_id. apply Permutation_refl.
Qed.

Lemma value_counts_In (b : string) (c : nat) :
  In (b, c) (Pandas.value_counts l)
  <-> In b l /\ c = List.length (filter (String.eqb b) l).
Proof.
  unfold Pandas.value_counts. split.
  - intros H. apply (Permutation_in _ (sort_values_perm _ _)) in H.
    apply in_map_iff in H. destruct H as [k [[= <- <-] Hk]].
    unfold Pandas.unique in Hk. rewrite (drop_duplicates_In String.eqb_eq) in Hk. auto.
  - intros [Hb ->]. apply (Permutation_in _ (Permutation_sym (sort_values_perm _ _))).
    apply in_map_iff. exists b. split; [reflexivity |].
    unfold Pandas.unique. rewrite (drop_duplicates_In String.eqb_eq). exact Hb.
Qed.

Lemma value_counts_total :
  list_sum (map snd (Pandas.value_counts l)) = List.length l.
Proof.
  unfold Pandas.value_counts.
  rewrite (list_sum_perm _ _ (Permutation_map snd (sort_values_perm _ _))).
  rewrite map_map. simpl. rewrite count_sum.
  - f_equal. apply forallb_filter_id. apply forallb_forall. intros x Hx.
    apply (seen_In String.eqb_eq). unfold Pandas.unique.
    rewrite (drop_duplicates_In String.eqb_eq). exact Hx.
  - apply (drop_duplicates_NoDup String.eqb_eq).
Qed.
End Counting.

Lemma valid_brand_names (dff : DataFrame) :
  Pandas.dropna (map BRAND_NAME (df_valid_brands dff))
  = Pandas.dropna (map BRAND_NAME dff)
  /\ List.length (Pandas.dropna (map BRAND_NAME dff))
     = List.length (df_valid_brands dff).
Proof.
  unfold df_valid_brands. induction dff as [| r t [IH1 IH2]]; simpl; [auto |].
  destruct (BRAND_NAME r) eqn:E; simpl; rewrite ?E; simpl; split; congruence.
Qed.

Lemma count_named (dff : DataFrame) (b : string) :
  List.length (filter (String.eqb b) (Pandas.dropna (map BRAND_NAME dff)))
  = rows_named dff b.
Proof.
  unfold rows_named. induction dff as [| r t IH]; simpl; [reflexivity |].
  destruct (BRAND_NAME r) as [n |]; simpl; [| exact IH].
  destruct (String.eqb b n); simpl; rewrite IH; reflexivity.
Qed.

(** Numeric cells from counts. *)

Lemma of_nat_add (a b : nat) : of_nat (a + b) = (of_nat a + of_nat b)%Qc.
Proof.
  unfold of_nat, of_Z. rewrite Nat2Z.inj_add. apply Qc_is_canon.
  unfold Qcplus, Q2Qc. cbn [this]. rewrite !Qred_correct, inject_Z_plus.
  reflexivity.
Qed.

Lemma of_nat_nonzero (n : nat) : 0 < n -> of_nat n <> 0%Qc.
Proof.
  intros Hn H. unfold of_nat, of_Z in H. change 0%Qc with (Q2Qc 0) in H.
  apply Q2Qc_eq_iff in H. unfold Qeq in H. simpl in H. lia.
Qed.

Lemma percentage_sum (T : Qc) (l : list (string * nat)) :
  Pandas.sum (map snd (map (fun bc => (fst bc, (of_nat (snd bc) / T * of_Z 100)%Qc)) l))
  = (of_nat (list_sum (map snd l)) / T * of_Z 100)%Qc.
Proof.
  induction l as [| [b c] t IH].
  - simpl. unfold Qcdiv. change (of_nat 0) with 0%Qc. ring.
  - change (Pandas.sum (map snd (map ?f ((b, c) :: t))))
      with (of_nat c / T * of_Z 100
            + Pandas.sum (map snd (map (fun bc : string * nat =>
                 (fst bc, of_nat (snd bc) / T * of_Z 100)) t)))%Qc.
    rewrite IH.
    change (list_sum (map snd ((b, c) :: t))) with (c + list_sum (map snd t)).
    rewrite of_nat_add. unfold Qcdiv. ring.
Qed.

Lemma brand_counts_In (dff : DataFrame) (b : string) (c : nat) :
  In (b, c) (brand_counts dff)
  <-> (exists r, In r dff /\ BRAND_NAME r = Some b) /\ c = rows_named dff b.
Proof.
  unfold brand_counts. rewrite (proj1 (valid_brand_names dff)).
  rewrite value_counts_In, count_named, dropna_In, in_map_iff.
  split; intros [[r H] ->]; (split; [exists r; tauto | reflexivity]).
Qed.

Lemma total_brands_rows (dff : DataFrame) :
  total_brands dff = List.length (df_valid_brands dff).
Proof.
  unfold total_brands, brand_counts. rewrite value_counts_total.
  destruct (valid_brand_names dff) as [-> ->]. reflexivity.
Qed.

(** C5. The brand distribution drops the rows without a brand name, counts
    the rows of each remaining brand and turns each count into its percentage
    of the number of rows with a brand name; when some row has a brand name,
    the percentages sum to 100. *)
Theorem brand_distribution (dff : DataFrame) :
  NoDup (map fst (brand_percentage dff))
  /\ (forall b c, In (b, c) (brand_counts dff)
                  <-> (exists r, In r dff /\ BRAND_NAME r = Some b)
                      /\ c = rows_named dff b)
  /\ total_brands dff = List.length (df_valid_brands dff)
  /\ (forall b p, In (b, p) (brand_percentage dff)
                  <-> (exists r, In r dff /\ BRAND_NAME r = Some b)
                      /\ p = (of_nat (rows_named dff b)
                              / of_nat (List.length (df_valid_brands dff))
                              * of_Z 100)%Qc)
  /\ ((exists r, In r dff /\ BRAND_NAME r <> None) ->
      Pandas.sum (map snd (brand_percentage dff)) = of_Z 100).
Proof.
  split; [| split; [| split; [| split]]].
  - unfold brand_percentage. rewrite map_map. simpl.
    apply (Permutation_NoDup (Permutation_sym (value_counts_keys _))).
    apply (drop_duplicates_NoDup String.eqb_eq).
  - apply brand_counts_In.
  - apply total_brands_rows.
  - intros b p. unfold brand_percentage. rewrite in_map_iff, total_brands_rows. split.
    + intros [[b' c] [[= <- <-] H]]. apply brand_counts_In in H.
      destruct H as [H ->]. split; [exact H | reflexivity].
    + intros [H ->]. exists (b, rows_named dff b). split; [reflexivity |].
      apply brand_counts_In. split; [exact H | reflexivity].
  - intros [r [Hr Hn]]. unfold brand_percentage. rewrite percentage_sum.
    fold (total_brands dff).
    assert (Hpos : 0 < total_brands dff).
    { rewrite total_brands_rows. unfold df_valid_brands.
      assert (Hin : In r (filter (fun r => match BRAND_NAME r with
                                           | Some _ => true | None => false end) dff)).
      { apply filter_In. split; [exact Hr |]. destruct (BRAND_NAME r); congruence. }
      destruct (filter _ dff); [destruct Hin | simpl; lia]. }
    apply of_nat_nonzero in Hpos. field. exact Hpos.
Qed.

Lemma brand_distribution_witness :
  Pandas.sum (map snd (brand_percentage sample_us)) = of_Z 100.
Proof.
  apply (brand_distribution sample_us).
  exists (mk_row "US" "P225/65R17" (of_Z 1000) (of_Z 200) (frac 1 5)
                 "A" (of_Z 300) (frac 3 10) (Some "Goodyear") "A1" (of_Z 180)
                 (Some "RAV4")).
  split; [simpl; auto | discriminate].
Defined.

(** ** The market share metric *)

Lemma of_nat_pos (n : nat) : 0 < n -> (0 < of_nat n)%Qc.
Proof.
  intros Hn. unfold Qclt, of_nat, of_Z, Q2Qc. cbn [this].
  rewrite !Qred_correct. unfold Qlt, inject_Z. cbn [Qnum Qden]. lia.
Qed.

Lemma sum_bounds (l : list Qc) :
  (forall x, In x l -> (0 <= x)%Qc /\ (x <= 1)%Qc) ->
  (0 <= Pandas.sum l)%Qc /\ (Pandas.sum l <= of_nat (List.length l))%Qc.
Proof.
  induction l as [| a t IH]; intros H.
  - split; apply Qcle_refl.
  - destruct IH as [IH0 IH1]; [intros x Hx; apply H; simpl; auto |].
    destruct (H a) as [Ha0 Ha1]; [simpl; auto |].
    change (Pandas.sum (a :: t)) with (a + Pandas.sum t)%Qc.
    change (List.length (a :: t)) with (1 + List.length t).
    rewrite of_nat_add. change (of_nat 1) with 1%Qc. split.
    + rewrite <- (Qcplus_0_l 0). apply Qcplus_le_compat; assumption.
    + apply Qcplus_le_compat; assumption.
Qed.

Lemma quotient_bounds (s n : Qc) :
  (0 < n)%Qc -> (0 <= s)%Qc -> (s <= n)%Qc ->
  (0 <= s / n)%Qc /\ (s / n <= 1)%Qc.
Proof.
  intros Hn H0 H1.
  assert (Hne : n <> 0%Qc) by (apply not_eq_sym, Qclt_not_eq, Hn).
  assert (E : (s / n * n)%Qc = s) by (field; exact Hne).
  split; apply (Qcmult_lt_0_le_reg_r _ _ n Hn); rewrite E.
  - rewrite Qcmult_0_l. exact H0.
  - rewrite Qcmult_1_l. exact H1.
Qed.

Lemma round_half_even_bounds (q : Q) (N : Z) :
  (0 <= q)%Q -> (q <= inject_Z N)%Q ->
  (0 <= Fmt.round_half_even q <= N)%Z.
Proof.
  destruct q as [n d]. unfold Qle, Fmt.round_half_even, inject_Z.
  cbn [Qnum Qden]. intros H0 H1.
  assert (Hd : (0 < Z.pos d)%Z) by lia.
  pose proof (Z.div_mod n (Z.pos d) ltac:(lia)) as E.
  pose proof (Z.mod_pos_bound n (Z.pos d) Hd) as Hr.
  assert (Hfl : (0 <= n / Z.pos d)%Z) by (apply Z.div_pos; lia).
  assert (Hle : (n / Z.pos d <= N)%Z) by nia.
  assert (Hlt : (0 < n mod Z.pos d -> n / Z.pos d + 1 <= N)%Z) by nia.
  destruct (Z.compare_spec (2 * (n mod Z.pos d)) (Z.pos d)) as [C | C | C].
  - destruct (Z.even (n / Z.pos d)); lia.
  - lia.
  - lia.
Qed.

Lemma quantize_bounds (x : Qc) :
  (0 <= x)%Qc -> (x <= of_Z 100)%Qc -> (0 <= Fmt.quantize 2 x <= 10000)%Z.
Proof.
  unfold Qcle, Fmt.quantize. intros H0 H1. apply round_half_even_bounds.
  - apply Qmult_le_0_compat; [exact H0 | discriminate].
  - change (inject_Z 10000) with (inject_Z 100 * inject_Z (10 ^ Z.of_nat 2))%Q.
    apply Qmult_le_compat_r; [exact H1 | discriminate].
Qed.

Lemma market_share_value (dff : DataFrame) :
  dff <> [] ->
  (forall r, In r dff -> (0 <= SOM_OF_BRAND r)%Qc /\ (SOM_OF_BRAND r <= 1)%Qc) ->
  let shares := Pandas.drop_duplicates Qceqb (map SOM_OF_BRAND dff) in
  market_share dff = Some (Pandas.sum shares / of_nat (List.length shares))%Qc
  /\ (0 <= Pandas.sum shares / of_nat (List.length shares))%Qc
  /\ (Pandas.sum shares / of_nat (List.length shares) <= 1)%Qc.
Proof.
  intros Hne Hr shares.
  assert (Hin : forall x, In x shares -> (0 <= x)%Qc /\ (x <= 1)%Qc).
  { intros x Hx. unfold shares in Hx. rewrite (drop_duplicates_In Qceqb_eq) in Hx.
    apply in_map_iff in Hx. destruct Hx as [r [<- Hx]]. apply Hr, Hx. }
  assert (Hlen : 0 < List.length shares).
  { destruct dff as [| r t]; [congruence |].
    assert (H : In (SOM_OF_BRAND r) shares).
    { unfold shares. rewrite (drop_duplicates_In Qceqb_eq). simpl. auto. }
    destruct shares; [destruct H | simpl; lia]. }
  destruct (sum_bounds shares Hin) as [H0 H1].
  split.
  - unfold market_share. fold shares. destruct shares; [simpl in Hlen; lia | reflexivity].
  - apply quotient_bounds; [apply of_nat_pos, Hlen | exact H0 | exact H1].
Qed.

Lemma mean_bounds (l : list Qc) (m : Qc) :
  Pandas.mean l = Some m ->
  (forall x, In x l -> (0 <= x)%Qc /\ (x <= 1)%Qc) ->
  (0 <= m)%Qc /\ (m <= 1)%Qc.
Proof.
  intros Hm H. destruct l as [| a t]; [discriminate |].
  unfold Pandas.mean in Hm. injection Hm as <-.
  destruct (sum_bounds (a :: t) H) as [H0 H1].
  apply quotient_bounds; [apply of_nat_pos; simpl; lia | exact H0 | exact H1].
Qed.

Lemma percent_units (m : Qc) (k : Z) :
  (this (m * of_Z 100)%Qc * inject_Z k == m * inject_Z (100 * k))%Q.
Proof.
  unfold Qcmult, of_Z, Q2Qc. cbn [this]. rewrite !Qred_correct.
  rewrite inject_Z_mult. ring.
Qed.

(** A share in [0, 1], times 100, formatted with [S d] decimals and followed
    by the percent sign: the text shows a number of units that is less than
    one unit away from the exact percentage. *)
Lemma percent_text_close (d : nat) (m : Qc) :
  (0 <= m)%Qc ->
  exists n,
    n = Fmt.quantize (S d) (m * of_Z 100)
    /\ shows_percent (S d) (Fmt.format_f (S d) (m * of_Z 100) ++ "%")%string n
    /\ (m * inject_Z (100 * 10 ^ Z.of_nat (S d)) - 1 < inject_Z n)%Q
    /\ (inject_Z n < m * inject_Z (100 * 10 ^ Z.of_nat (S d)) + 1)%Q.
Proof.
  intros Hm.
  assert (Hx : (0 <= m * of_Z 100)%Qc).
  { rewrite <- (Qcmult_0_l (of_Z 100)). apply Qcmult_le_compat_r; [exact Hm | discriminate]. }
  exists (Fmt.quantize (S d) (m * of_Z 100)). split; [reflexivity |].
  split; [apply format_f_shows, Hx |].
  destruct (quantize_close (S d) (m * of_Z 100)) as [H1 H2].
  rewrite percent_units in H1, H2. split; assumption.
Qed.

(** C4 (amended). The market share is the mean of the distinct share
    fractions of the filtered table, and NaN shows as [nan%].  On a filtered
    table that has at least one row and whose share fractions all lie in
    [0, 1], the mean times 100 lies in [0, 100], and the metric text is
    digits, a point, two decimals and the percent sign; the number it shows
    lies in [0, 100] and is less than a hundredth away from the mean times
    100. *)
Theorem market_share_metric_range (dff : DataFrame) :
  market_share dff = average (distinct Qc_eq_dec (map SOM_OF_BRAND dff))
  /\ (market_share dff = None -> market_share_text dff = "nan%")
  /\ (dff <> [] ->
      (forall r, In r dff -> (0 <= SOM_OF_BRAND r)%Qc /\ (SOM_OF_BRAND r <= 1)%Qc) ->
      exists m n,
        market_share dff = Some m
        /\ (0 <= m * of_Z 100)%Qc /\ (m * of_Z 100 <= of_Z 100)%Qc
        /\ shows_percent 2 (market_share_text dff) n
        /\ (0 <= n <= 10000)%Z
        /\ (m * inject_Z 10000 - 1 < inject_Z n)%Q
        /\ (inject_Z n < m * inject_Z 10000 + 1)%Q).
Proof.
  split; [apply market_share_average | split].
  - intros H. unfold market_share_text. rewrite H. reflexivity.
  - intros Hne Hr. destruct (market_share_value dff Hne Hr) as [Hm [H0 H1]].
    set (m := (Pandas.sum _ / _)%Qc) in *.
    assert (Hk : (0 <= of_Z 100)%Qc) by discriminate.
    assert (Hlo : (0 <= m * of_Z 100)%Qc).
    { rewrite <- (Qcmult_0_l (of_Z 100)). apply Qcmult_le_compat_r; assumption. }
    assert (Hhi : (m * of_Z 100 <= of_Z 100)%Qc).
    { rewrite <- (Qcmult_1_l (of_Z 100)) at 2. apply Qcmult_le_compat_r; assumption. }
    destruct (percent_text_close 1 m H0) as [n [En [Hshow [Hc1 Hc2]]]].
    exists m, n. split; [exact Hm | split; [exact Hlo | split; [exact Hhi |]]].
    split; [| split; [| split; assumption]].
    + unfold market_share_text. rewrite Hm. exact Hshow.
    + rewrite En. apply quantize_bounds; assumption.
Qed.

Lemma market_share_metric_range_witness :
  market_share sample_two_figures = Some (frac 9 40)
  /\ exists m n,
       market_share sample_two_figures = Some m
       /\ (0 <= m * of_Z 100)%Qc /\ (m * of_Z 100 <= of_Z 100)%Qc
       /\ shows_percent 2 (market_share_text sample_two_figures) n
       /\ (0 <= n <= 10000)%Z
       /\ (m * inject_Z 10000 - 1 < inject_Z n)%Q
       /\ (inject_Z n < m * inject_Z 10000 + 1)%Q.
Proof.
  split; [vm_compute; f_equal; apply Qc_is_canon; reflexivity |].
  apply (market_share_metric_range sample_two_figures).
  - discriminate.
  - intros r Hr. vm_compute in Hr.
    repeat (destruct Hr as [<- | Hr]; [split; discriminate |]). destruct Hr.
Defined.

Example market_share_text_sample : market_share_text sample_us = "20.00%".
Proof. reflexivity. Qed.

(** On the empty filtered table ("US" with "205/55R16" in [sample]) the mean
    is NaN and the metric reads [nan%]. *)
Lemma market_share_empty_is_nan :
  df_filtered sample (selected_countries sample 0) (selected_tire_size sample 1) = []
  /\ market_share [] = None
  /\ market_share_text [] = "nan%"
  /\ ~ metric_in_range_on_every_table.
Proof.
  split; [reflexivity | split; [reflexivity | split; [reflexivity |]]].
  intros H. destruct (H []) as [m [Hm _]].
  - intros r [].
  - discriminate.
Qed.

(** ** The top-10 competitor table: its rows *)

Lemma top_row_ok_spec (dff : DataFrame) (row : TopRow) :
  top_row_ok dff row -> top_row_spec dff row.
Proof.
  intros [s [m [Es [Hr [Hmax [Hm Htxt]]]]]]. split.
  - exists s. auto.
  - intros Hrange.
    destruct (mean_bounds _ _ Hm) as [H0 H1].
    { intros x Hx. apply in_map_iff in Hx. destruct Hx as [[s' m'] [<- Hp]].
      apply brand_sales_som_In in Hp. destruct Hp as [r [Hin [Eb [_ <-]]]].
      simpl. apply Hrange; assumption. }
    destruct (percent_text_close 3 m H0) as [n [_ [Hshow [Hc1 Hc2]]]].
    exists m, n. split; [rewrite <- brand_mean_share_mean; exact Hm |].
    rewrite Htxt. split; [exact Hshow | split; assumption].
Qed.

(** C3. The top-10 competitor table deduplicates on (brand, sales, share),
    groups by brand with the maximum of the sales and the mean of the share,
    writes the share as a percentage with 4 decimals, sorts by the maximum
    sales in descending order and keeps the first 10.  It has at most 10 rows,
    its sales column is in non-increasing order and each brand has one row.
    A row carries the largest sales figure of its brand; when the brand's
    shares lie in [0, 1], its share text is digits, a point, four decimals
    and the percent sign, and shows a number less than 0.0001 away from 100
    times the mean share of the brand's distinct (sales, share) pairs.  A
    brand of the filtered table is missing only when 10 rows with sales at
    least as large are listed. *)
Theorem top_competitors_table (dff : DataFrame) :
  let table := df_top_competitors dff in
  List.length table <= 10
  /\ StronglySorted sales_desc table
  /\ NoDup (map top_brand table)
  /\ (forall row, In row table -> top_row_spec dff row)
  /\ (forall r, In r dff ->
        (exists row, In row table /\ top_brand row = COMPETITOR_BRAND r)
        \/ (List.length table = 10
            /\ forall row, In row table ->
                 exists s, top_sales row = Some s /\ (COMPETITOR_BRAND_SALES r <= s)%Qc)).
Proof.
  unfold df_top_competitors.
  set (T := map top_row_of (top_competitors_agg dff)).
  set (leb := fun a b : TopRow => desc_nan_last (top_sales a) (top_sales b)).
  assert (HP : Permutation (Pandas.sort_values leb T) T) by apply sort_values_perm.
  assert (HS : StronglySorted (fun a b => leb a b = true) (Pandas.sort_values leb T)).
  { apply sort_values_sorted.
    - intros x y. apply desc_nan_last_total.
    - intros x y z. apply desc_nan_last_trans. }
  assert (Hok : forall row, In row (Pandas.sort_values leb T) -> top_row_ok dff row).
  { intros row H. apply top_rows_ok. apply (Permutation_in _ HP), H. }
  assert (Hdesc : forall a b, In a (Pandas.sort_values leb T) ->
                              In b (Pandas.sort_values leb T) ->
                              leb a b = true -> sales_desc a b).
  { intros a b Ha Hb L.
    destruct (Hok a Ha) as [x [_ [Ex _]]]. destruct (Hok b Hb) as [y [_ [Ey _]]].
    exists x, y. unfold leb in L. rewrite Ex, Ey in L. simpl in L.
    apply Qcleb_le in L. auto. }
  cbv zeta. split; [| split; [| split; [| split]]].
  - apply head_length.
  - apply head_sorted. apply sorted_impl with (R := fun a b => leb a b = true); assumption.
  - apply head_NoDup.
    apply (Permutation_NoDup (Permutation_map top_brand (Permutation_sym HP))).
    unfold T. rewrite map_map. simpl. apply top_competitors_agg_keys.
  - intros row H. apply top_row_ok_spec, Hok. apply head_In in H. exact H.
  - intros r Hr. destruct (top_rows_cover dff r Hr) as [row [Hrow Eb]].
    apply (Permutation_in _ (Permutation_sym HP)) in Hrow.
    destruct (head_cut 10 _ row HS Hrow) as [H | [Hlen H]].
    + left. eauto.
    + right. split; [exact Hlen |]. intros row' Hrow'.
      assert (Hin' : In row' (Pandas.sort_values leb T)) by (apply head_In in Hrow'; exact Hrow').
      destruct (Hdesc row' row Hin' Hrow (H row' Hrow')) as [x [y [Ex [Ey Hle]]]].
      exists x. split; [exact Ex |].
      destruct (Hok row Hrow) as [s [_ [Es [_ [Hmax _]]]]].
      rewrite Es in Ey. injection Ey as ->.
      eapply Qcle_trans; [apply Hmax; auto | exact Hle].
Qed.

Lemma top_competitors_table_witness :
  df_top_competitors sample_two_figures
  = [ {| top_brand := "A"; top_sales := Some (of_Z 300); top_som := "21.2500%" |};
      {| top_brand := "B"; top_sales := Some (of_Z 150); top_som := "15.0000%" |} ]
  /\ brand_mean_share sample_two_figures "A" = Some (frac 17 80)
  /\ exists m n,
       brand_mean_share sample_two_figures "A" = Some m
       /\ shows_percent 4 "21.2500%" n
       /\ (m * inject_Z 1000000 - 1 < inject_Z n)%Q
       /\ (inject_Z n < m * inject_Z 1000000 + 1)%Q.
Proof.
  split; [vm_compute; reflexivity |].
  split; [vm_compute; f_equal; apply Qc_is_canon; reflexivity |].
  destruct (top_competitors_table sample_two_figures) as [_ [_ [_ [H _]]]].
  destruct (H {| top_brand := "A"; top_sales := Some (of_Z 300);
                 top_som := "21.2500%" |}) as [_ Hrow].
  - vm_compute. auto.
  - apply Hrow. intros r Hr _. vm_compute in Hr.
    repeat (destruct Hr as [<- | Hr]; [split; discriminate |]). destruct Hr.
Defined.

(** ** An empty selection *)

(** C1 (amended). When the filtered subset is empty, the run raises nothing;
    the market share metric reads [nan%] (the mean of an empty column is
    NaN), and the competitor sales ranking, the top-10 table and the fitments
    list are empty, as are the other charts; no callout is written. *)
Theorem empty_selection_page (df : DataFrame) (i j k : nat) :
  df_filtered df (selected_countries df i) (selected_tire_size df j) = [] ->
  exists page,
    run df i j k = Ok page
    /\ page_metric page = "nan%"
    /\ page_competitor_sales page = []
    /\ page_top_table page = []
    /\ page_fitments page = []
    /\ page_sales page = []
    /\ page_brand_pie page = []
    /\ page_callouts page = None
    /\ page_competitor_options page = []
    /\ page_pattern_pie page = [].
Proof.
  intros H.
  destruct (run_ok df i j k)
    as [page [Hrun [Hs [Hm [Hc [Hb [Ht [Hca [Ho [Hp Hf]]]]]]]]]].
  rewrite H in *. exists page.
  split; [exact Hrun |].
  rewrite Hm, Hc, Ht, Hf, Hs, Hb, Hca, Ho, Hp.
  repeat split.
Qed.

Lemma empty_selection_page_witness :
  exists page,
    run sample 0 1 0 = Ok page
    /\ page_metric page = "nan%"
    /\ page_competitor_sales page = []
    /\ page_top_table page = []
    /\ page_fitments page = []
    /\ page_sales page = []
    /\ page_brand_pie page = []
    /\ page_callouts page = None
    /\ page_competitor_options page = []
    /\ page_pattern_pie page = [].
Proof. apply (empty_selection_page sample 0 1 0). reflexivity. Defined.

(** "US" and "205/55R16" both occur in [sample], never in one row: the
    filtered subset is empty and the metric reads [nan%], not [0.00%]. *)
Lemma empty_selection_reads_nan :
  selected_countries sample 0 = Some "US"
  /\ selected_tire_size sample 1 = Some "205/55R16"
  /\ df_filtered sample (Some "US") (Some "205/55R16") = []
  /\ (exists page, run sample 0 1 0 = Ok page /\ page_metric page = "nan%")
  /\ ~ empty_selection_reads_zero.
Proof.
  split; [reflexivity | split; [reflexivity | split; [reflexivity | split]]].
  - eexists. split; reflexivity.
  - intros H. destruct (H sample 0 1 0 eq_refl) as [page [Hrun [Hm _]]].
    vm_compute in Hrun. injection Hrun as <-. discriminate.
Qed.

(** * Further properties of the script *)

(** ** Deduplication of columns that hold one value, or no repeated value *)

Section DropDuplicatesMore.
Variable A : Type.
Variable eqb : A -> A -> bool.
Hypothesis eqb_eq : forall x y, eqb x y = true <-> x = y.

Lemma drop_duplicates_from_seen (l seen : list A) :
  (forall x, In x l -> In x seen) -> Pandas.drop_duplicates_from eqb seen l = [].
Proof.
  induction l as [| y t IH]; intros H; simpl; [reflexivity |].
  assert (E : existsb (eqb y) seen = true).
  { apply (seen_In eqb_eq). apply H. simpl. auto. }
  rewrite E. apply IH. intros x Hx. apply H. simpl. auto.
Qed.

Lemma drop_duplicates_const (a : A) (l : list A) :
  l <> [] -> (forall x, In x l -> x = a) -> Pandas.drop_duplicates eqb l = [a].
Proof.
  destruct l as [| y t]; [congruence |]. intros _ H.
  assert (y = a) by (apply H; simpl; auto). subst y.
  unfold Pandas.drop_duplicates. simpl. f_equal.
  apply drop_duplicates_from_seen. intros x Hx. left. symmetry. apply H. simpl. auto.
Qed.

Lemma drop_duplicates_from_id (l seen : list A) :
  NoDup l -> (forall x, In x l -> ~ In x seen) ->
  Pandas.drop_duplicates_from eqb seen l = l.
Proof.
  revert seen. induction l as [| y t IH]; intros seen Hnd H; simpl; [reflexivity |].
  inversion Hnd as [| ? ? Hy Ht]; subst.
  assert (E : existsb (eqb y) seen = false).
  { apply (seen_not_In eqb_eq). apply H. simpl. auto. }
  rewrite E. f_equal. apply IH; [exact Ht |].
  intros x Hx [<- | Hs]; [contradiction |]. apply (H x); simpl; auto.
Qed.

Lemma drop_duplicates_id (l : list A) : NoDup l -> Pandas.drop_duplicates eqb l = l.
Proof. intros H. apply drop_duplicates_from_id; [exact H | intros x _ []]. Qed.

Lemma drop_duplicates_nil_iff (l : list A) : Pandas.drop_duplicates eqb l = [] <-> l = [].
Proof.
  split; [| intros ->; reflexivity]. destruct l as [| y t]; [reflexivity |].
  unfold Pandas.drop_duplicates. simpl. discriminate.
Qed.
End DropDuplicatesMore.

Arguments drop_duplicates_const {A eqb} eqb_eq a l.
Arguments drop_duplicates_id {A eqb} eqb_eq l.
Arguments drop_duplicates_nil_iff {A} eqb l.

(** ** The filter stage, again *)

(** X1. Filtering on country and size is filtering on country and then on
    size; filtering the result again with the same selections changes
    nothing, and the result never has more rows than the loaded table. *)
Theorem filter_stage_composes (df : DataFrame) (country size : option string) :
  df_filtered df country size
  = filter (fun r => eq_sel (TIRE_SIZE r) size)
      (filter (fun r => eq_sel (COUNTRY_OR_TERRITORY r) country) df)
  /\ df_filtered (df_filtered df country size) country size
     = df_filtered df country size
  /\ List.length (df_filtered df country size) <= List.length df.
Proof.
  unfold df_filtered. split; [| split].
  - induction df as [| r t IH]; simpl; [reflexivity |].
    destruct (eq_sel (COUNTRY_OR_TERRITORY r) country); simpl.
    + destruct (eq_sel (TIRE_SIZE r) size); rewrite IH; reflexivity.
    + exact IH.
  - induction df as [| r t IH]; simpl; [reflexivity |].
    destruct (eq_sel (COUNTRY_OR_TERRITORY r) country && eq_sel (TIRE_SIZE r) size) eqn:E.
    + simpl. rewrite E, IH. reflexivity.
    + exact IH.
  - apply filter_length_le.
Qed.

(** ** The industry and Goodyear sales bars *)

Lemma melt_length (c1 c2 : string) (rows : list (Qc * Qc)) :
  List.length (melt c1 c2 rows) = 2 * List.length rows.
Proof. unfold melt. rewrite length_app, !length_map. lia. Qed.

(** X3. The bar chart gets two rows per distinct (industry sales, Goodyear
    sales) pair of the filtered table.  It gets exactly the two bars [a] and
    [b] if and only if the filtered table has a row and every row carries
    industry sales [a] and Goodyear sales [b]; rows that disagree on the pair
    add further bars. *)
Theorem sales_bars_two_iff_constant (dff : DataFrame) (a b : Qc) :
  List.length (sales_data dff)
  = 2 * List.length
          (Pandas.drop_duplicates eqb_QQ
             (map (fun r => (TOTAL_INDUSTRY_SALES r, GOODYEAR_SALES r)) dff))
  /\ (sales_data dff = [("TOTAL_INDUSTRY_SALES", a); ("GOODYEAR_SALES", b)]
      <-> dff <> []
          /\ forall r, In r dff -> TOTAL_INDUSTRY_SALES r = a /\ GOODYEAR_SALES r = b).
Proof.
  unfold sales_data.
  set (pairs := map (fun r => (TOTAL_INDUSTRY_SALES r, GOODYEAR_SALES r)) dff).
  split; [apply melt_length |]. split.
  - intros H.
    assert (Hlen : List.length (Pandas.drop_duplicates eqb_QQ pairs) = 1).
    { apply (f_equal (@List.length _)) in H. rewrite melt_length in H. simpl in H. lia. }
    destruct (Pandas.drop_duplicates eqb_QQ pairs) as [| [a' b'] [| q D]] eqn:ED;
      simpl in Hlen; try lia.
    unfold melt in H. simpl in H. injection H as -> ->.
    split.
    + intros ->. discriminate ED.
    + intros r Hr.
      assert (Hin : In (TOTAL_INDUSTRY_SALES r, GOODYEAR_SALES r)
                       (Pandas.drop_duplicates eqb_QQ pairs)).
      { rewrite (drop_duplicates_In eqb_QQ_eq). unfold pairs.
        apply (in_map (fun r => (TOTAL_INDUSTRY_SALES r, GOODYEAR_SALES r))), Hr. }
      rewrite ED in Hin. destruct Hin as [[= <- <-] | []]. auto.
  - intros [Hne H].
    rewrite (drop_duplicates_const eqb_QQ_eq (a, b)).
    + reflexivity.
    + unfold pairs. destruct dff; [congruence | discriminate].
    + intros x Hx. unfold pairs in Hx. apply in_map_iff in Hx.
      destruct Hx as [r [<- Hr]]. destruct (H r Hr) as [-> ->]. reflexivity.
Qed.

(** ** Sums and means: order and single values *)

Lemma sum_perm (l l' : list Qc) : Permutation l l' -> Pandas.sum l = Pandas.sum l'.
Proof.
  induction 1 as [| x l l' _ IH | x y l | l l' l'' _ IH1 _ IH2].
  - reflexivity.
  - change (x + Pandas.sum l = x + Pandas.sum l')%Qc. rewrite IH. reflexivity.
  - change (y + (x + Pandas.sum l) = x + (y + Pandas.sum l))%Qc. ring.
  - congruence.
Qed.

Lemma mean_single (s : Qc) : Pandas.mean [s] = Some s.
Proof.
  unfold Pandas.mean. f_equal. change (of_nat (List.length [s])) with 1%Qc.
  change (Pandas.sum [s]) with (s + 0)%Qc. field. discriminate.
Qed.

(** ** Counting the groups *)

Lemma same_elements_length (A : Type) (l l' : list A) :
  NoDup l -> NoDup l' -> (forall x, In x l <-> In x l') ->
  List.length l = List.length l'.
Proof. intros H1 H2 H. apply Permutation_length, NoDup_Permutation; assumption. Qed.

Lemma groupby_length (R : Type) (key : R -> string) (rows : list R) :
  List.length (Pandas.groupby key rows)
  = List.length (Pandas.unique String.eqb (map key rows)).
Proof.
  unfold Pandas.groupby. rewrite length_map.
  apply Permutation_length, sort_values_perm.
Qed.

Lemma brand_pairs_count (dff : DataFrame) :
  List.length
    (Pandas.unique String.eqb
       (map fst
          (Pandas.drop_duplicates eqb_SQ
             (map (fun r => (COMPETITOR_BRAND r, COMPETITOR_BRAND_SALES r)) dff))))
  = brand_count dff.
Proof.
  unfold brand_count, Pandas.unique.
  apply same_elements_length; try apply (drop_duplicates_NoDup String.eqb_eq).
  intros b. rewrite !(drop_duplicates_In String.eqb_eq), !in_map_iff. split.
  - intros [[b' s] [E H]]. simpl in E. subst b'.
    rewrite (drop_duplicates_In eqb_SQ_eq) in H. apply in_map_iff in H.
    destruct H as [r [[= <- _] Hr]]. eauto.
  - intros [r [<- Hr]]. exists (COMPETITOR_BRAND r, COMPETITOR_BRAND_SALES r).
    split; [reflexivity |]. rewrite (drop_duplicates_In eqb_SQ_eq).
    apply in_map_iff. eauto.
Qed.

Lemma brand_triples_count (dff : DataFrame) :
  List.length
    (Pandas.unique String.eqb
       (map (fun t : string * Qc * Qc => fst (fst t))
          (Pandas.drop_duplicates eqb_SQQ
             (map (fun r => (COMPETITOR_BRAND r, COMPETITOR_BRAND_SALES r,
                             COMPETITOR_SOM r)) dff))))
  = brand_count dff.
Proof.
  unfold brand_count, Pandas.unique.
  apply same_elements_length; try apply (drop_duplicates_NoDup String.eqb_eq).
  intros b. rewrite !(drop_duplicates_In String.eqb_eq), !in_map_iff. split.
  - intros [[[b' s] m] [E H]]. simpl in E. subst b'.
    rewrite (drop_duplicates_In eqb_SQQ_eq) in H. apply in_map_iff in H.
    destruct H as [r [[= <- _ _] Hr]]. eauto.
  - intros [r [<- Hr]].
    exists (COMPETITOR_BRAND r, COMPETITOR_BRAND_SALES r, COMPETITOR_SOM r).
    split; [reflexivity |]. rewrite (drop_duplicates_In eqb_SQQ_eq).
    apply in_map_iff. eauto.
Qed.

Lemma df_competitor_sales_length (dff : DataFrame) :
  List.length (df_competitor_sales dff) = Nat.min 35 (brand_count dff).
Proof.
  unfold df_competitor_sales, Pandas.head. rewrite length_firstn.
  rewrite (Permutation_length (sort_values_perm _ _)), length_map, groupby_length.
  rewrite brand_pairs_count. reflexivity.
Qed.

Lemma df_top_competitors_length (dff : DataFrame) :
  List.length (df_top_competitors dff) = Nat.min 10 (brand_count dff).
Proof.
  unfold df_top_competitors, Pandas.head. rewrite length_firstn.
  rewrite (Permutation_length (sort_values_perm _ _)), length_map.
  unfold top_competitors_agg. rewrite length_map, groupby_length.
  rewrite brand_triples_count. reflexivity.
Qed.

(** ** The ranking and the table when a brand's sales figure is constant *)

Section UniqueOfProjection.
Variables A B : Type.
Variable eqbA : A -> A -> bool.
Variable eqbB : B -> B -> bool.
Hypothesis eqbA_eq : forall x y, eqbA x y = true <-> x = y.
Hypothesis eqbB_eq : forall x y, eqbB x y = true <-> x = y.
Variable f : A -> B.

Lemma unique_map_drop_duplicates_from (l seenA : list A) (seenB : list B) :
  (forall x, In x seenA -> In (f x) seenB) ->
  Pandas.drop_duplicates_from eqbB seenB
    (map f (Pandas.drop_duplicates_from eqbA seenA l))
  = Pandas.drop_duplicates_from eqbB seenB (map f l).
Proof.
  revert seenA seenB. induction l as [| x t IH]; intros seenA seenB H; simpl.
  - reflexivity.
  - destruct (existsb (eqbA x) seenA) eqn:EA.
    + apply (seen_In eqbA_eq) in EA. apply H in EA. apply (seen_In eqbB_eq) in EA.
      rewrite EA. apply IH, H.
    + simpl. destruct (existsb (eqbB (f x)) seenB) eqn:EB.
      * apply IH. intros y [<- | Hy]; [apply (seen_In eqbB_eq), EB | apply H, Hy].
      * f_equal. apply IH. intros y [<- | Hy]; simpl; auto.
Qed.

Lemma unique_map_drop_duplicates (l : list A) :
  Pandas.drop_duplicates eqbB (map f (Pandas.drop_duplicates eqbA l))
  = Pandas.drop_duplicates eqbB (map f l).
Proof. apply unique_map_drop_duplicates_from. intros x []. Qed.
End UniqueOfProjection.

Arguments unique_map_drop_duplicates {A B eqbA eqbB} eqbA_eq eqbB_eq f l.

Lemma insert_map (A B : Type) (h : A -> B) (lebA : A -> A -> bool)
    (lebB : B -> B -> bool) (x : A) (l : list A) :
  (forall a b, lebA a b = lebB (h a) (h b)) ->
  map h (Pandas.insert lebA x l) = Pandas.insert lebB (h x) (map h l).
Proof.
  intros H. induction l as [| y t IH]; simpl; [reflexivity |].
  rewrite <- H. destruct (lebA x y); simpl; [reflexivity | rewrite IH; reflexivity].
Qed.

Lemma sort_values_map (A B : Type) (h : A -> B) (lebA : A -> A -> bool)
    (lebB : B -> B -> bool) (l : list A) :
  (forall a b, lebA a b = lebB (h a) (h b)) ->
  map h (Pandas.sort_values lebA l) = Pandas.sort_values lebB (map h l).
Proof.
  intros H. induction l as [| x t IH]; simpl; [reflexivity |].
  rewrite (insert_map _ _ h lebA lebB _ _ H), IH. reflexivity.
Qed.

Lemma max_const (l : list Qc) (s : Qc) :
  l <> [] -> (forall x, In x l -> x = s) -> Pandas.max l = Some s.
Proof.
  intros Hne H. destruct (max_nonempty l Hne) as [m Hm].
  rewrite Hm. f_equal. apply H. apply (max_spec _ _ Hm).
Qed.

Lemma sum_single (s : Qc) : Pandas.sum [s] = s.
Proof. change (Pandas.sum [s]) with (s + 0)%Qc. ring. Qed.

(** The brand keys of both groupings are the distinct brands of the table,
    in ascending order. *)
Lemma competitor_keys (dff : DataFrame) :
  map fst
    (Pandas.groupby fst
       (Pandas.drop_duplicates eqb_SQ
          (map (fun r => (COMPETITOR_BRAND r, COMPETITOR_BRAND_SALES r)) dff)))
  = Pandas.sort_values String.leb
      (Pandas.unique String.eqb (map COMPETITOR_BRAND dff)).
Proof.
  unfold Pandas.groupby, Pandas.unique. rewrite map_map. simpl. rewrite map_id.
  rewrite (unique_map_drop_duplicates eqb_SQ_eq String.eqb_eq), map_map. reflexivity.
Qed.

Lemma top_competitor_keys (dff : DataFrame) :
  map (fun t => fst (fst t)) (top_competitors_agg dff)
  = Pandas.sort_values String.leb
      (Pandas.unique String.eqb (map COMPETITOR_BRAND dff)).
Proof.
  unfold top_competitors_agg, Pandas.groupby, Pandas.unique.
  rewrite !map_map. simpl. rewrite map_id.
  rewrite (unique_map_drop_duplicates eqb_SQQ_eq String.eqb_eq), map_map. reflexivity.
Qed.

Lemma competitor_groups_by_key (dff : DataFrame) :
  map (fun g => (fst g, Pandas.sum (map snd (snd g))))
    (Pandas.groupby fst
       (Pandas.drop_duplicates eqb_SQ
          (map (fun r => (COMPETITOR_BRAND r, COMPETITOR_BRAND_SALES r)) dff)))
  = map (fun k => (k, brand_sales_total dff k))
      (Pandas.sort_values String.leb
         (Pandas.unique String.eqb (map COMPETITOR_BRAND dff))).
Proof.
  rewrite <- competitor_keys. unfold Pandas.groupby. rewrite !map_map. simpl.
  apply map_ext. intros k. rewrite brand_group_sales. reflexivity.
Qed.

Lemma top_rows_by_key (dff : DataFrame) :
  map (fun row => (top_brand row, top_sales row))
    (map top_row_of (top_competitors_agg dff))
  = map (fun k => (k, Pandas.max (map fst (brand_sales_som dff k))))
      (Pandas.sort_values String.leb
         (Pandas.unique String.eqb (map COMPETITOR_BRAND dff))).
Proof.
  rewrite <- top_competitor_keys. rewrite !map_map. simpl.
  unfold top_competitors_agg, Pandas.groupby. rewrite !map_map. simpl.
  apply map_ext. intros k. rewrite <- (brand_group_sales_som dff k), map_map.
  reflexivity.
Qed.

Lemma sorted_brand_In (dff : DataFrame) (k : string) :
  In k (Pandas.sort_values String.leb
          (Pandas.unique String.eqb (map COMPETITOR_BRAND dff)))
  -> exists r, In r dff /\ COMPETITOR_BRAND r = k.
Proof.
  intros H. apply (Permutation_in _ (sort_values_perm _ _)) in H.
  unfold Pandas.unique in H. rewrite (drop_duplicates_In String.eqb_eq) in H.
  apply in_map_iff in H. destruct H as [r [E Hr]]. eauto.
Qed.

Lemma constant_brand_sales (dff : DataFrame) (r : Row) :
  (forall r', In r' dff -> COMPETITOR_BRAND r' = COMPETITOR_BRAND r ->
              COMPETITOR_BRAND_SALES r' = COMPETITOR_BRAND_SALES r) ->
  In r dff ->
  brand_sales_total dff (COMPETITOR_BRAND r) = COMPETITOR_BRAND_SALES r
  /\ Pandas.max (map fst (brand_sales_som dff (COMPETITOR_BRAND r)))
     = Some (COMPETITOR_BRAND_SALES r).
Proof.
  intros H Hr.
  assert (Hrow : In r (brand_rows dff (COMPETITOR_BRAND r))).
  { apply filter_In. split; [exact Hr | apply String.eqb_refl]. }
  assert (Hall : forall r', In r' (brand_rows dff (COMPETITOR_BRAND r)) ->
                            COMPETITOR_BRAND_SALES r' = COMPETITOR_BRAND_SALES r).
  { intros r' Hr'. apply filter_In in Hr'. destruct Hr' as [Hr' E].
    apply String.eqb_eq in E. apply H; assumption. }
  split.
  - unfold brand_sales_total.
    rewrite (drop_duplicates_const Qceqb_eq (COMPETITOR_BRAND_SALES r)).
    + apply sum_single.
    + intros E. apply (in_map COMPETITOR_BRAND_SALES) in Hrow. rewrite E in Hrow.
      destruct Hrow.
    + intros x Hx. apply in_map_iff in Hx. destruct Hx as [r' [<- Hr']].
      apply Hall, Hr'.
  - apply max_const.
    + intros E.
      assert (Hin : In (COMPETITOR_BRAND_SALES r, COMPETITOR_SOM r)
                       (brand_sales_som dff (COMPETITOR_BRAND r))).
      { apply brand_sales_som_In. exists r. auto. }
      apply (in_map fst) in Hin. rewrite E in Hin. destruct Hin.
    + intros x Hx. apply in_map_iff in Hx. destruct Hx as [[s m] [<- Hp]].
      apply brand_sales_som_In in Hp. destruct Hp as [r' [Hr' [Eb [<- _]]]].
      simpl. apply H; assumption.
Qed.

(** X9. When every competitor brand carries one sales figure throughout the
    filtered table, the ranking shows that figure for the brand (nothing is
    added up), and the top-10 table lists the same brands with the same sales
    in the same order as the first 10 entries of the ranking. *)
Theorem table_follows_ranking_when_sales_constant (dff : DataFrame) :
  (forall r r', In r dff -> In r' dff -> COMPETITOR_BRAND r' = COMPETITOR_BRAND r ->
                COMPETITOR_BRAND_SALES r' = COMPETITOR_BRAND_SALES r) ->
  (forall b v, In (b, v) (df_competitor_sales dff) ->
               exists r, In r dff /\ COMPETITOR_BRAND r = b
                         /\ COMPETITOR_BRAND_SALES r = v)
  /\ map (fun row => (top_brand row, top_sales row)) (df_top_competitors dff)
     = map (fun p => (fst p, Some (snd p))) (Pandas.head 10 (df_competitor_sales dff)).
Proof.
  intros H. split.
  - intros b v Hin. unfold df_competitor_sales in Hin. apply head_In in Hin.
    apply (Permutation_in _ (sort_values_perm _ _)) in Hin.
    apply competitor_groups_In in Hin. destruct Hin as [[r [Hr <-]] ->].
    exists r. split; [exact Hr | split; [reflexivity |]].
    symmetry. apply (constant_brand_sales dff r); [| exact Hr].
    intros r' Hr'. apply H; assumption.
  - set (lebT := fun a b : string * option Qc => desc_nan_last (snd a) (snd b)).
    unfold df_top_competitors, df_competitor_sales, Pandas.head.
    rewrite firstn_firstn, <- !firstn_map. simpl Nat.min. f_equal.
    rewrite (sort_values_map _ _ (fun row => (top_brand row, top_sales row)) _ lebT)
      by reflexivity.
    rewrite (sort_values_map _ _ (fun p : string * Qc => (fst p, Some (snd p))) _ lebT)
      by reflexivity.
    f_equal. rewrite top_rows_by_key, competitor_groups_by_key, map_map. simpl.
    apply map_ext_in. intros k Hk. apply sorted_brand_In in Hk.
    destruct Hk as [r [Hr <-]]. f_equal.
    destruct (constant_brand_sales dff r) as [-> ->]; [| exact Hr | reflexivity].
    intros r' Hr'. apply H; assumption.
Qed.

Lemma table_follows_ranking_when_sales_constant_witness :
  map (fun row => (top_brand row, top_sales row)) (df_top_competitors sample_us)
  = map (fun p => (fst p, Some (snd p))) (Pandas.head 10 (df_competitor_sales sample_us)).
Proof.
  apply (table_follows_ranking_when_sales_constant sample_us).
  intros r r' Hr Hr'. vm_compute in Hr, Hr'.
  repeat (destruct Hr as [<- | Hr]); try contradiction;
    repeat (destruct Hr' as [<- | Hr']); try contradiction;
    intros E; first [reflexivity | discriminate E].
Defined.

(** ** Sums of non-negative figures *)

Lemma sum_nonneg (l : list Qc) :
  (forall x, In x l -> (0 <= x)%Qc) -> (0 <= Pandas.sum l)%Qc.
Proof.
  induction l as [| a t IH]; intros H.
  - apply Qcle_refl.
  - change (Pandas.sum (a :: t)) with (a + Pandas.sum t)%Qc.
    rewrite <- (Qcplus_0_l 0). apply Qcplus_le_compat.
    + apply H. simpl. auto.
    + apply IH. intros x Hx. apply H. simpl. auto.
Qed.

Lemma sum_ge_member (l : list Qc) (s : Qc) :
  (forall x, In x l -> (0 <= x)%Qc) -> In s l -> (s <= Pandas.sum l)%Qc.
Proof.
  induction l as [| a t IH]; intros H Hs; [destruct Hs |].
  change (Pandas.sum (a :: t)) with (a + Pandas.sum t)%Qc.
  assert (Ha : (0 <= a)%Qc) by (apply H; simpl; auto).
  assert (Ht : forall x, In x t -> (0 <= x)%Qc) by (intros x Hx; apply H; simpl; auto).
  destruct Hs as [<- | Hs].
  - rewrite <- (Qcplus_0_r a) at 1. apply Qcplus_le_compat; [apply Qcle_refl |].
    apply sum_nonneg, Ht.
  - rewrite <- (Qcplus_0_l s). apply Qcplus_le_compat; [exact Ha | apply IH; assumption].
Qed.

(** ** The competitor selector and the pattern breakdown *)

Lemma df_top_competitors_NoDup (dff : DataFrame) :
  NoDup (map top_brand (df_top_competitors dff)).
Proof.
  unfold df_top_competitors. apply head_NoDup.
  apply (Permutation_NoDup
           (Permutation_map top_brand (Permutation_sym (sort_values_perm _ _)))).
  rewrite map_map. simpl. apply top_competitors_agg_keys.
Qed.

Lemma selectbox_None (A : Type) (options : list A) (choice : nat) :
  selectbox options choice = None <-> List.length options <= choice.
Proof. apply nth_error_None. Qed.

Lemma df_competitor_pattern_None (dff : DataFrame) :
  df_competitor_pattern dff None = [].
Proof.
  unfold df_competitor_pattern. induction dff as [| r t IH]; [reflexivity | exact IH].
Qed.

(** X12. The competitor selector lists the brands of the top-10 table in
    table order, each once, so its first position is the top competitor of
    the callouts.  It yields no competitor exactly when the position is past
    the end of the table; then the pattern breakdown is empty, and for a
    selected competitor it has at least one (pattern, sales) row. *)
Theorem competitor_selector_follows_table (dff : DataFrame) (choice : nat) :
  let top := df_top_competitors dff in
  competitor_options top = map top_brand top
  /\ selected_competitor top 0 = option_map fst (first_row_callouts top)
  /\ (selected_competitor top choice = None <-> List.length top <= choice)
  /\ (selected_competitor top choice = None ->
      df_pattern_sales (df_competitor_pattern dff (selected_competitor top choice)) = [])
  /\ (selected_competitor top choice <> None ->
      df_pattern_sales (df_competitor_pattern dff (selected_competitor top choice)) <> []).
Proof.
  cbv zeta.
  assert (Hopt : competitor_options (df_top_competitors dff)
                 = map top_brand (df_top_competitors dff)).
  { unfold competitor_options, Pandas.unique.
    apply (drop_duplicates_id String.eqb_eq), df_top_competitors_NoDup. }
  split; [exact Hopt | split; [| split; [| split]]].
  - unfold selected_competitor. rewrite Hopt.
    destruct (df_top_competitors dff); reflexivity.
  - unfold selected_competitor. rewrite selectbox_None, Hopt, length_map. tauto.
  - intros ->. rewrite df_competitor_pattern_None. reflexivity.
  - destruct (selected_competitor (df_top_competitors dff) choice) as [c |] eqn:E;
      [intros _ | congruence].
    unfold selected_competitor in E. apply selectbox_In in E. rewrite Hopt in E.
    apply in_map_iff in E. destruct E as [row [<- Hrow]].
    destruct (df_top_competitors_rows dff row Hrow) as [s [m [_ [[r [Hr [Eb _]]] _]]]].
    intros Hnil.
    assert (Hin : In (COMPETITOR_PATTERN r, COMPETITOR_PATTERN_SALES r)
                     (df_pattern_sales
                        (df_competitor_pattern dff (Some (top_brand row))))).
    { unfold df_pattern_sales. rewrite (drop_duplicates_In eqb_SQ_eq).
      apply (in_map (fun r => (COMPETITOR_PATTERN r, COMPETITOR_PATTERN_SALES r))).
      unfold df_competitor_pattern. apply filter_In. split; [exact Hr |].
      simpl. apply String.eqb_eq, Eb. }
    rewrite Hnil in Hin. destruct Hin.
Qed.

(** ** The fitment lines *)

Lemma append_inj (p s t : string) : (p ++ s = p ++ t)%string -> s = t.
Proof. induction p as [| c p IH]; simpl; [auto | intros [= H]; auto]. Qed.

Lemma NoDup_map_inj (A B : Type) (f : A -> B) (l : list A) :
  (forall x y, f x = f y -> x = y) -> NoDup l -> NoDup (map f l).
Proof.
  intros Hinj. induction 1 as [| x l Hx Hl IH]; simpl; constructor; [| exact IH].
  intros H. apply in_map_iff in H. destruct H as [y [E Hy]].
  apply Hinj in E. subst y. contradiction.
Qed.

Lemma NoDup_head (A : Type) (n : nat) (l : list A) : NoDup l -> NoDup (Pandas.head n l).
Proof.
  intros H. rewrite <- (firstn_skipn n l) in H. apply NoDup_app_remove_r in H. exact H.
Qed.

(** X13. No fitment is written twice.  The number of lines is the number of
    distinct non-null fitments up to 5; each line is the check mark followed
    by a fitment of some row of the filtered table, and nothing is written
    exactly when every row has a null fitments cell. *)
Theorem fitment_lines_distinct (dff : DataFrame) :
  NoDup (fitment_lines dff)
  /\ List.length (fitment_lines dff) = Nat.min 5 (List.length (fitments dff))
  /\ (forall line, In line (fitment_lines dff) ->
        exists f r, line = (check_mark ++ f)%string
                    /\ In r dff /\ TOP_5_FITMENTS r = Some f)
  /\ (fitment_lines dff = [] <-> forall r, In r dff -> TOP_5_FITMENTS r = None).
Proof.
  assert (Hin : forall f, In f (fitments dff)
                          <-> exists r, In r dff /\ TOP_5_FITMENTS r = Some f).
  { intros f. unfold fitments, Pandas.unique.
    rewrite (drop_duplicates_In String.eqb_eq), dropna_In, in_map_iff.
    split; intros [r H]; exists r; tauto. }
  split; [| split; [| split]].
  - unfold fitment_lines. apply NoDup_map_inj.
    + intros x y. apply append_inj.
    + apply NoDup_head. unfold fitments, Pandas.unique.
      apply (drop_duplicates_NoDup String.eqb_eq).
  - unfold fitment_lines, Pandas.head. rewrite length_map, length_firstn. reflexivity.
  - intros line H. unfold fitment_lines in H. apply in_map_iff in H.
    destruct H as [f [<- Hf]]. apply head_In, Hin in Hf. destruct Hf as [r Hr].
    exists f, r. tauto.
  - rewrite <- length_zero_iff_nil. unfold fitment_lines, Pandas.head.
    rewrite length_map, length_firstn. split.
    + intros H r Hr. destruct (TOP_5_FITMENTS r) as [f |] eqn:E; [| reflexivity].
      assert (Hf : In f (fitments dff)) by (apply Hin; eauto).
      destruct (fitments dff); [destruct Hf | simpl in H; lia].
    + intros H. destruct (fitments dff) as [| f t]; [reflexivity |].
      destruct (proj1 (Hin f) (or_introl eq_refl)) as [r [Hr Er]].
      rewrite (H r Hr) in Er. discriminate.
Qed.

(** ** The brand distribution, again *)

Lemma of_nat_le (a b : nat) : a <= b -> (of_nat a <= of_nat b)%Qc.
Proof.
  intros H. unfold Qcle, of_nat, of_Z, Q2Qc. cbn [this].
  rewrite !Qred_correct. unfold Qle, inject_Z. cbn [Qnum Qden]. lia.
Qed.

Lemma ratio_pos (c t : Qc) : (0 < c)%Qc -> (0 < t)%Qc -> (0 < c / t)%Qc.
Proof.
  intros Hc Ht. apply Qcnot_le_lt. intros Hle.
  assert (Hne : t <> 0%Qc) by (apply not_eq_sym, Qclt_not_eq, Ht).
  assert (E : (c / t * t)%Qc = c) by (field; exact Hne).
  apply (Qclt_not_le _ _ Hc). rewrite <- E, <- (Qcmult_0_l t).
  apply Qcmult_le_compat_r; [exact Hle | apply Qclt_le_weak, Ht].
Qed.

Lemma by_count_total (a b : string * nat) :
  Nat.leb (snd b) (snd a) = true \/ Nat.leb (snd a) (snd b) = true.
Proof. rewrite !Nat.leb_le. lia. Qed.

Lemma by_count_trans (a b c : string * nat) :
  Nat.leb (snd b) (snd a) = true -> Nat.leb (snd c) (snd b) = true ->
  Nat.leb (snd c) (snd a) = true.
Proof. rewrite !Nat.leb_le. lia. Qed.

Lemma value_counts_sorted (l : list string) :
  StronglySorted (fun a b => snd b <= snd a) (Pandas.value_counts l).
Proof.
  unfold Pandas.value_counts.
  apply sorted_impl with (R := fun a b : string * nat => Nat.leb (snd b) (snd a) = true).
  - intros a b _ _. apply Nat.leb_le.
  - apply (sort_values_sorted (leb := fun a b : string * nat => Nat.leb (snd b) (snd a))).
    + intros x y. apply by_count_total.
    + intros x y z. apply by_count_trans.
Qed.

Lemma value_counts_bounds (l : list string) (b : string) (c : nat) :
  In (b, c) (Pandas.value_counts l) -> 1 <= c <= List.length l.
Proof.
  intros H. apply value_counts_In in H. destruct H as [Hb ->]. split.
  - assert (Hin : In b (filter (String.eqb b) l)).
    { apply filter_In. split; [exact Hb | apply String.eqb_refl]. }
    destruct (filter (String.eqb b) l); [destruct Hin | simpl; lia].
  - apply filter_length_le.
Qed.

(** X14. Every brand of the distribution has at least one row and at most all
    the rows with a brand name; the brands come most frequent first; every
    percentage is above 0 and at most 100; and the distribution is empty
    exactly when no row of the filtered table has a brand name (no division
    by the zero total takes place). *)
Theorem brand_percentage_bounds (dff : DataFrame) :
  (forall b c, In (b, c) (brand_counts dff) -> 1 <= c <= total_brands dff)
  /\ StronglySorted (fun a b => snd b <= snd a) (brand_counts dff)
  /\ (forall b p, In (b, p) (brand_percentage dff) ->
                  (0 < p)%Qc /\ (p <= of_Z 100)%Qc)
  /\ (brand_percentage dff = [] <-> forall r, In r dff -> BRAND_NAME r = None).
Proof.
  assert (Hc : forall b c, In (b, c) (brand_counts dff) -> 1 <= c <= total_brands dff).
  { intros b c H. unfold total_brands, brand_counts in *.
    rewrite value_counts_total. apply (value_counts_bounds _ b), H. }
  split; [exact Hc | split; [apply value_counts_sorted | split]].
  - intros b p H. unfold brand_percentage in H. apply in_map_iff in H.
    destruct H as [[b' c] [[= <- <-] H]]. simpl. apply Hc in H.
    assert (Hk : (0 < of_Z 100)%Qc) by reflexivity.
    assert (Hcpos : (0 < of_nat c)%Qc) by (apply of_nat_pos; lia).
    assert (Htpos : (0 < of_nat (total_brands dff))%Qc) by (apply of_nat_pos; lia).
    split.
    + rewrite <- (Qcmult_0_l (of_Z 100)). apply Qcmult_lt_compat_r; [exact Hk |].
      apply ratio_pos; assumption.
    + rewrite <- (Qcmult_1_l (of_Z 100)) at 2.
      apply Qcmult_le_compat_r; [| apply Qclt_le_weak, Hk].
      apply quotient_bounds; [exact Htpos | apply Qclt_le_weak, Hcpos |].
      apply of_nat_le. lia.
  - unfold brand_percentage. split.
    + intros H r Hr. destruct (BRAND_NAME r) as [b |] eqn:E; [| reflexivity].
      assert (Hin : In (b, rows_named dff b) (brand_counts dff)).
      { apply brand_counts_In. split; [eauto | reflexivity]. }
      destruct (brand_counts dff); [destruct Hin | discriminate H].
    + intros H. destruct (brand_counts dff) as [| [b c] t] eqn:E; [reflexivity |].
      assert (Hin : In (b, c) (brand_counts dff)) by (rewrite E; simpl; auto).
      apply brand_counts_In in Hin. destruct Hin as [[r [Hr Er]] _].
      rewrite (H r Hr) in Er. discriminate.
Qed.

(** ** Row order and repeated rows *)

Lemma ascii_compare_refl (c : ascii) : Ascii.compare c c = Eq.
Proof. unfold Ascii.compare. apply N.compare_refl. Qed.

Lemma ascii_compare_lt_trans (a b c : ascii) :
  Ascii.compare a b = Lt -> Ascii.compare b c = Lt -> Ascii.compare a c = Lt.
Proof. unfold Ascii.compare. rewrite !N.compare_lt_iff. apply N.lt_trans. Qed.

Lemma string_compare_lt_trans (s1 s2 s3 : string) :
  String.compare s1 s2 = Lt -> String.compare s2 s3 = Lt -> String.compare s1 s3 = Lt.
Proof.
  revert s2 s3. induction s1 as [| c1 s1 IH]; intros [| c2 s2] [| c3 s3];
    simpl; try discriminate; try reflexivity.
  destruct (Ascii.compare c1 c2) eqn:E12; try discriminate;
    destruct (Ascii.compare c2 c3) eqn:E23; try discriminate; intros H1 H2.
  - apply Ascii.compare_eq_iff in E12, E23. subst.
    rewrite ascii_compare_refl. eapply IH; eauto.
  - apply Ascii.compare_eq_iff in E12. subst. rewrite E23. reflexivity.
  - apply Ascii.compare_eq_iff in E23. subst. rewrite E12. reflexivity.
  - rewrite (ascii_compare_lt_trans _ _ _ E12 E23). reflexivity.
Qed.

Lemma string_leb_trans (s1 s2 s3 : string) :
  String.leb s1 s2 = true -> String.leb s2 s3 = true -> String.leb s1 s3 = true.
Proof.
  unfold String.leb.
  destruct (String.compare s1 s2) eqn:E12; try discriminate;
    destruct (String.compare s2 s3) eqn:E23; try discriminate; intros _ _.
  - apply String.compare_eq_iff in E12. subst. rewrite E23. reflexivity.
  - apply String.compare_eq_iff in E12. subst. rewrite E23. reflexivity.
  - apply String.compare_eq_iff in E23. subst. rewrite E12. reflexivity.
  - rewrite (string_compare_lt_trans _ _ _ E12 E23). reflexivity.
Qed.

Section SortedUnique.
Variable A : Type.
Variable leb : A -> A -> bool.
Hypothesis leb_antisym : forall x y, leb x y = true -> leb y x = true -> x = y.

Lemma sorted_perm_eq (l l' : list A) :
  StronglySorted (fun a b => leb a b = true) l ->
  StronglySorted (fun a b => leb a b = true) l' ->
  Permutation l l' -> l = l'.
Proof.
  revert l'. induction l as [| a t IH]; intros l' Hs Hs' Hp.
  - apply Permutation_nil in Hp. subst. reflexivity.
  - destruct l' as [| a' t'].
    + apply Permutation_sym, Permutation_nil in Hp. discriminate.
    + inversion Hs as [| ? ? Ht Ha]; subst. inversion Hs' as [| ? ? Ht' Ha']; subst.
      rewrite Forall_forall in Ha, Ha'.
      assert (E : a = a').
      { assert (H1 : In a (a' :: t')) by (apply (Permutation_in _ Hp); simpl; auto).
        assert (H2 : In a' (a :: t)).
        { apply (Permutation_in _ (Permutation_sym Hp)); simpl; auto. }
        destruct H1 as [-> | H1]; [reflexivity |].
        destruct H2 as [-> | H2]; [reflexivity |].
        apply leb_antisym; [apply Ha, H2 | apply Ha', H1]. }
      subst a'. f_equal. apply IH; try assumption.
      apply (Permutation_cons_inv Hp).
Qed.
End SortedUnique.

Arguments sorted_perm_eq {A leb} leb_antisym l l'.

(** The sorted distinct brands depend only on which brands occur. *)
Lemma sorted_brands_same (dff dff' : DataFrame) :
  (forall b, In b (map COMPETITOR_BRAND dff) <-> In b (map COMPETITOR_BRAND dff')) ->
  Pandas.sort_values String.leb (Pandas.unique String.eqb (map COMPETITOR_BRAND dff))
  = Pandas.sort_values String.leb (Pandas.unique String.eqb (map COMPETITOR_BRAND dff')).
Proof.
  intros H. apply (sorted_perm_eq String.leb_antisym).
  - apply (sort_values_sorted String.leb_total string_leb_trans).
  - apply (sort_values_sorted String.leb_total string_leb_trans).
  - eapply perm_trans; [apply sort_values_perm |].
    eapply perm_trans; [| apply Permutation_sym, sort_values_perm].
    unfold Pandas.unique. apply NoDup_Permutation.
    + apply (drop_duplicates_NoDup String.eqb_eq).
    + apply (drop_duplicates_NoDup String.eqb_eq).
    + intros b. rewrite !(drop_duplicates_In String.eqb_eq). apply H.
Qed.


(** X16. When the sales cells of two filtered tables are whole numbers within
    the range in which the script's additions are exact, and the same
    (brand, sales) pairs occur in both, the two tables give the same
    competitor sales ranking, entry for entry, whatever the row order and
    repetitions. *)
Theorem ranking_ignores_order_and_repeats (dff dff' : DataFrame) :
  whole_sales dff -> whole_sales dff' ->
  (forall p, In p (map (fun r => (COMPETITOR_BRAND r, COMPETITOR_BRAND_SALES r)) dff)
             <-> In p (map (fun r => (COMPETITOR_BRAND r, COMPETITOR_BRAND_SALES r)) dff')) ->
  df_competitor_sales dff = df_competitor_sales dff'.
Proof.
  intros _ _ H.
  assert (Hb : forall b, In b (map COMPETITOR_BRAND dff)
                         <-> In b (map COMPETITOR_BRAND dff')).
  { assert (Hdir : forall d d' : DataFrame,
               (forall p, In p (map (fun r => (COMPETITOR_BRAND r, COMPETITOR_BRAND_SALES r)) d)
                          -> In p (map (fun r => (COMPETITOR_BRAND r, COMPETITOR_BRAND_SALES r)) d'))
               -> forall b, In b (map COMPETITOR_BRAND d) -> In b (map COMPETITOR_BRAND d')).
    { intros d d' Hd b Hin. apply in_map_iff in Hin. destruct Hin as [r [<- Hr]].
      assert (Hp : In (COMPETITOR_BRAND r, COMPETITOR_BRAND_SALES r)
                      (map (fun r => (COMPETITOR_BRAND r, COMPETITOR_BRAND_SALES r)) d')).
      { apply Hd. apply in_map_iff. eauto. }
      apply in_map_iff in Hp. destruct Hp as [r' [[= E _] Hr']].
      rewrite <- E. apply in_map, Hr'. }
    intros b. split; apply Hdir; intros p; apply H. }
  assert (Hs : forall (d : DataFrame) b s,
             In s (map COMPETITOR_BRAND_SALES (brand_rows d b))
             <-> In (b, s) (map (fun r => (COMPETITOR_BRAND r, COMPETITOR_BRAND_SALES r)) d)).
  { intros d b s. unfold brand_rows. rewrite !in_map_iff. split.
    - intros [r [<- Hr]]. apply filter_In in Hr. destruct Hr as [Hr E].
      apply String.eqb_eq in E. subst b. eauto.
    - intros [r [[= <- <-] Hr]]. exists r. split; [reflexivity |].
      apply filter_In. split; [exact Hr | apply String.eqb_refl]. }
  unfold df_competitor_sales. rewrite !competitor_groups_by_key.
  rewrite (sorted_brands_same dff dff' Hb). do 2 f_equal.
  apply map_ext. intros k. f_equal. unfold brand_sales_total.
  apply sum_perm, NoDup_Permutation.
  - apply (drop_duplicates_NoDup Qceqb_eq).
  - apply (drop_duplicates_NoDup Qceqb_eq).
  - intros s. rewrite !(drop_duplicates_In Qceqb_eq), !Hs. apply H.
Qed.

Lemma ranking_ignores_order_and_repeats_witness :
  df_competitor_sales (rev sample_two_figures ++ sample_two_figures)
  = df_competitor_sales sample_two_figures
  /\ df_competitor_sales sample_two_figures = [("A", of_Z 420); ("B", of_Z 150)].
Proof.
  split; [| vm_compute; reflexivity].
  apply (ranking_ignores_order_and_repeats
           (rev sample_two_figures ++ sample_two_figures) sample_two_figures).
  - exists [120; 150; 300; 300; 150; 120]%Z.
    split; [reflexivity | vm_compute; discriminate].
  - exists [300; 150; 120]%Z. split; [reflexivity | vm_compute; discriminate].
  - intros p. rewrite map_app, map_rev, in_app_iff, <- in_rev. tauto.
Defined.

(** ** The market share when every row carries the same share *)

(** X4. When the filtered table has a row and every row carries the same
    share of market [s], the market share is [s] itself: the repeated rows do
    not weigh in.  If [s] lies in [0, 1], the metric text is digits, a point,
    two decimals and the percent sign, and shows a number less than a
    hundredth away from [s] times 100. *)
Theorem market_share_of_constant_share (dff : DataFrame) (s : Qc) :
  dff <> [] ->
  (forall r, In r dff -> SOM_OF_BRAND r = s) ->
  market_share dff = Some s
  /\ ((0 <= s)%Qc -> (s <= 1)%Qc ->
      exists n,
        shows_percent 2 (market_share_text dff) n
        /\ (s * inject_Z 10000 - 1 < inject_Z n)%Q
        /\ (inject_Z n < s * inject_Z 10000 + 1)%Q).
Proof.
  intros Hne H.
  assert (Hm : market_share dff = Some s).
  { unfold market_share. rewrite (drop_duplicates_const Qceqb_eq s).
    - apply mean_single.
    - destruct dff; [congruence | discriminate].
    - intros x Hx. apply in_map_iff in Hx. destruct Hx as [r [<- Hr]]. apply H, Hr. }
  split; [exact Hm |]. intros H0 _.
  destruct (percent_text_close 1 s H0) as [n [_ [Hshow [Hc1 Hc2]]]].
  exists n. split; [| split; assumption].
  unfold market_share_text. rewrite Hm. exact Hshow.
Qed.

Lemma market_share_of_constant_share_witness :
  market_share sample_us = Some (frac 1 5)
  /\ exists n,
       shows_percent 2 (market_share_text sample_us) n
       /\ (frac 1 5 * inject_Z 10000 - 1 < inject_Z n)%Q
       /\ (inject_Z n < frac 1 5 * inject_Z 10000 + 1)%Q.
Proof.
  destruct (market_share_of_constant_share sample_us (frac 1 5)) as [Hm Htxt].
  - discriminate.
  - intros r Hr. vm_compute in Hr.
    repeat (destruct Hr as [<- | Hr]; [reflexivity |]). destruct Hr.
  - split; [exact Hm |]. apply Htxt; discriminate.
Defined.

(** ** How many brands the ranking and the table list *)

(** X8. With [brands] the distinct competitor brands of the filtered table,
    the competitor sales ranking has one entry per brand up to 35 and the
    top-10 table one row per brand up to 10: with at most 35 (at most 10)
    brands none is left out. *)
Theorem ranking_and_table_sizes (dff : DataFrame) :
  exists brands : list string,
    NoDup brands
    /\ (forall b, In b brands <-> exists r, In r dff /\ COMPETITOR_BRAND r = b)
    /\ List.length (df_competitor_sales dff) = Nat.min 35 (List.length brands)
    /\ List.length (df_top_competitors dff) = Nat.min 10 (List.length brands).
Proof.
  exists (Pandas.unique String.eqb (map COMPETITOR_BRAND dff)).
  split; [apply (drop_duplicates_NoDup String.eqb_eq) | split; [| split]].
  - intros b. unfold Pandas.unique.
    rewrite (drop_duplicates_In String.eqb_eq), in_map_iff.
    split; intros [r H]; exists r; tauto.
  - apply df_competitor_sales_length.
  - apply df_top_competitors_length.
Qed.

(** ** The figure in the table and the figure in the ranking *)

(** X10. When the sales cells are non-negative whole numbers within the range
    in which the script's additions are exact, a brand that is both in the
    top-10 table and in the ranking never shows a larger figure in the table
    (the largest of its sales figures) than in the ranking (the sum of its
    distinct sales figures). *)
Theorem table_sales_at_most_ranking_sales (dff : DataFrame) (row : TopRow) (v : Qc) :
  whole_sales dff ->
  (forall r, In r dff -> (0 <= COMPETITOR_BRAND_SALES r)%Qc) ->
  In row (df_top_competitors dff) ->
  In (top_brand row, v) (df_competitor_sales dff) ->
  exists s, top_sales row = Some s /\ (s <= v)%Qc.
Proof.
  intros _ Hpos Hrow Hv.
  destruct (df_top_competitors_rows dff row Hrow) as [s [m [Es [[r [Hr [Eb Er]]] _]]]].
  exists s. split; [exact Es |].
  unfold df_competitor_sales in Hv. apply head_In in Hv.
  apply (Permutation_in _ (sort_values_perm _ _)) in Hv.
  apply competitor_groups_In in Hv. destruct Hv as [_ ->].
  unfold brand_sales_total. apply sum_ge_member.
  - intros x Hx. rewrite (drop_duplicates_In Qceqb_eq) in Hx.
    apply in_map_iff in Hx. destruct Hx as [r' [<- Hr']].
    apply filter_In in Hr'. apply Hpos, Hr'.
  - rewrite (drop_duplicates_In Qceqb_eq). subst s.
    apply in_map. apply filter_In. split; [exact Hr | apply String.eqb_eq, Eb].
Qed.

Lemma table_sales_at_most_ranking_sales_witness :
  exists s, Some (of_Z 300) = Some s /\ (s <= of_Z 420)%Qc.
Proof.
  apply (table_sales_at_most_ranking_sales sample_two_figures
           {| top_brand := "A"; top_sales := Some (of_Z 300); top_som := "21.2500%" |}
           (of_Z 420)).
  - exists [300; 150; 120]%Z. split; [reflexivity | vm_compute; discriminate].
  - intros r Hr. vm_compute in Hr.
    repeat (destruct Hr as [<- | Hr]; [discriminate |]). destruct Hr.
  - vm_compute. auto.
  - vm_compute. auto.
Defined.
